(** * Palm-oil grading app: the inference worker channel, tensor conversion,
      batch inference and grading history, embedded from the TypeScript sources.

    Source files covered:
    - [lib/tflite/wasmClient.ts]   : [TFLiteClient], [imageDataToTensor]
    - [workers/tflite-worker.ts]   : the worker's message handler
    - [lib/tflite/loadModel.ts]    : [loadModel] (module-level model cache)
    - [lib/tflite/runInference.ts] : [runInference], [runBatchInference] (TF.js pipeline)
    - [lib/tflite/index.ts]        : [runInference], [runBatchInference] (backend API)
    - [lib/storage.ts]             : grading history in localStorage

    Promises are modelled by an explicit store of promise cells; closures that
    capture [resolve]/[reject] are modelled by the identifier of the cell they
    settle.  Console output, posted messages and terminated workers are kept as
    explicit effect logs in the state. *)

From Stdlib Require Import ZArith QArith List String Lia Sorted.
From Stdlib Require Import Floats.PrimFloat.
From stdpp Require Import gmap strings list pretty.

Open Scope string_scope.
Open Scope list_scope.

(* ================================================================== *)
(** * JavaScript promises *)
(* ================================================================== *)

Module Promise.

(** A JS [number]; the code only moves these values around, compares them
    and picks a largest one. *)
Abbreviation number := PrimFloat.float.

(** How a synchronous piece of code (or an awaited [async] call) completes:
    it returns a value or throws an [Error] with a message. *)
Inductive Completion (A : Type) :=
| Returns (a : A)
| Throws (message : string).
Arguments Returns {A} a.
Arguments Throws {A} message.

(** The state of one promise cell; a rejection carries the [Error]'s message. *)
Inductive Cell (A : Type) :=
| Pending
| Fulfilled (v : A)
| Rejected (message : string).
Arguments Pending {A}.
Arguments Fulfilled {A} v.
Arguments Rejected {A} message.

Definition PromiseId := nat.

(** [resolve]/[reject] of a promise: only a pending promise is settled,
    every later call is ignored. *)
Definition settle {A} (p : PromiseId) (o : Cell A) (store : gmap nat (Cell A))
  : gmap nat (Cell A) :=
  match store !! p with
  | Some Pending => <[p := o]> store
  | _ => store
  end.

(** What an [async] function hands to its caller: either it returned an
    existing promise (the caller's promise adopts that cell), or it completed
    synchronously (returned a value or threw) and the caller's promise is
    already settled. *)
Inductive Returned (A : Type) :=
| Adopts (p : PromiseId)
| Already (o : Cell A).
Arguments Adopts {A} p.
Arguments Already {A} o.

(** What the caller of an [async] function observes in a given store. *)
Definition observe {A} (store : gmap nat (Cell A)) (r : Returned A) : Cell A :=
  match r with
  | Adopts p => default Pending (store !! p)
  | Already o => o
  end.

End Promise.

(* ================================================================== *)
(** * lib/tflite/wasmClient.ts : class TFLiteClient *)
(* ================================================================== *)

Module Client.
Import Promise.

(** [InferenceResult] of wasmClient.ts: [{ output: Float32Array, inferenceTimeMs }]. *)
Record InferenceResult := mkResult {
  output : list number;
  inferenceTimeMs : number
}.

(** What a promise of the client is fulfilled with: [void] for [init], an
    [InferenceResult] for [infer]. *)
Inductive Value :=
| VVoid
| VResult (r : InferenceResult).

(** Messages posted to the worker ([InitMessage | InferMessage]). *)
Inductive ToWorker :=
| MsgInit (modelUrl : string)
| MsgInfer (input : list Byte.byte) (inputShape : list nat).

(** Messages received from the worker ([data] of [handleWorkerMessage]):
    [{type:'result', output, inferenceTimeMs}], [{type:'error', error}];
    [output] may be [null] (the worker posts [output: null] on a repeated
    init); any other [type] is ignored by the handler. *)
Inductive FromWorker :=
| MsgResult (output : option (list number)) (inferenceTimeMs : number)
| MsgError (error : string)
| MsgOther (type : string).

(** Entries of [inferenceCallbacks]: the [{resolve, reject}] pair stored by
    [init] under key 0 ([initCallback]) and the pair stored by [infer]. *)
Inductive Callback :=
| InitCallback (p : PromiseId)
| InferCallback (p : PromiseId).

Definition callback_promise (cb : Callback) : PromiseId :=
  match cb with InitCallback p | InferCallback p => p end.

(** A created [Worker]; its [onerror] handler closes over the [reject] of
    the init promise that was being built when the worker was created. *)
Record Worker := mkWorker {
  wid : nat;
  onerror_rejects : PromiseId
}.

Inductive LogEntry :=
| ConsoleLog (text : string)
| ConsoleWarn (text : string) (messageId : nat)
| ConsoleError (text : string)
| Uncaught (text : string).

(** The instance fields of [TFLiteClient]. *)
Record Fields := mkFields {
  worker : option Worker;
  isInitialized : bool;
  initPromise : option PromiseId;
  inferenceCallbacks : gmap nat Callback;
  messageId : nat
}.

(** The client together with the part of the world it acts on. *)
Record State := mkState {
  client : Fields;
  promises : gmap nat (Cell Value);
  nextPromise : nat;
  nextWorker : nat;
  outbox : list (nat * ToWorker);   (* postMessage calls, oldest first *)
  terminated : list nat;            (* workers on which terminate() ran *)
  console : list LogEntry           (* oldest first *)
}.

(** [new TFLiteClient()] in a fresh page. *)
Definition new_client : Fields :=
  mkFields None false None ∅ 0.

Definition initial : State :=
  mkState new_client ∅ 0 0 [] [] [].

(** ** Field updates *)

Definition set_client (f : Fields) (s : State) : State :=
  mkState f (promises s) (nextPromise s) (nextWorker s) (outbox s) (terminated s) (console s).

Definition set_promises (ps : gmap nat (Cell Value)) (s : State) : State :=
  mkState (client s) ps (nextPromise s) (nextWorker s) (outbox s) (terminated s) (console s).

Definition log (e : LogEntry) (s : State) : State :=
  mkState (client s) (promises s) (nextPromise s) (nextWorker s) (outbox s) (terminated s)
          (console s ++ [e]).

Definition post (w : nat) (m : ToWorker) (s : State) : State :=
  mkState (client s) (promises s) (nextPromise s) (nextWorker s) (outbox s ++ [(w, m)])
          (terminated s) (console s).

(** [new Promise(...)]: a fresh pending cell. *)
Definition new_promise (s : State) : PromiseId * State :=
  (nextPromise s,
   mkState (client s) (<[nextPromise s := Pending]> (promises s)) (S (nextPromise s))
           (nextWorker s) (outbox s) (terminated s) (console s)).

Definition settle_promise (p : PromiseId) (o : Cell Value) (s : State) : State :=
  set_promises (settle p o (promises s)) s.

(** ** The callbacks' [resolve] and [reject] *)

(** [initCallback.resolve] sets [isInitialized], logs, and resolves the init
    promise (its argument is ignored); an infer callback's [resolve] is the
    promise's own. *)
Definition callback_resolve (cb : Callback) (r : InferenceResult) (s : State) : State :=
  match cb with
  | InitCallback p =>
      let f := client s in
      let s := set_client (mkFields (worker f) true (initPromise f)
                                    (inferenceCallbacks f) (messageId f)) s in
      let s := log (ConsoleLog "[TFLiteClient] Initialized successfully") s in
      settle_promise p (Fulfilled VVoid) s
  | InferCallback p => settle_promise p (Fulfilled (VResult r)) s
  end.

Definition callback_reject (cb : Callback) (message : string) (s : State) : State :=
  match cb with
  | InitCallback p =>
      let s := log (ConsoleError "[TFLiteClient] Initialization failed:") s in
      settle_promise p (Rejected message) s
  | InferCallback p => settle_promise p (Rejected message) s
  end.

(** ** [init] *)

(** The environment of an [init] call: whether [window] is defined, and
    whether [new Worker(...)] throws (with which message). *)
Record Env := mkEnv {
  hasWindow : bool;
  workerCtorThrows : option string
}.

Definition browser : Env := mkEnv true None.

Definition init (env : Env) (modelUrl : string) (s : State) : State * Returned Value :=
  match initPromise (client s) with
  | Some p => (s, Adopts p)
  | None =>
      if isInitialized (client s) then (s, Already (Fulfilled VVoid))
      else if negb (hasWindow env) then
        (s, Already (Rejected "TFLiteClient can only be used in browser context"))
      else
        let '(p, s) := new_promise s in
        let s := log (ConsoleLog "[TFLiteClient] Creating worker...") s in
        let s :=
          match workerCtorThrows env with
          | Some message =>
              let s := log (ConsoleError "[TFLiteClient] Failed to create worker:") s in
              settle_promise p (Rejected message) s
          | None =>
              let w := mkWorker (nextWorker s) p in
              let f := client s in
              let s := mkState (mkFields (Some w) (isInitialized f) (initPromise f)
                                         (<[0 := InitCallback p]> (inferenceCallbacks f))
                                         (messageId f))
                               (promises s) (nextPromise s) (S (nextWorker s))
                               (outbox s) (terminated s) (console s) in
              let s := log (ConsoleLog "[TFLiteClient] Sending init message with model:") s in
              post (wid w) (MsgInit modelUrl) s
          end in
        let f := client s in
        (set_client (mkFields (worker f) (isInitialized f) (Some p)
                              (inferenceCallbacks f) (messageId f)) s,
         Adopts p)
  end.

(** ** [infer] *)

Definition not_initialized_message : string :=
  "TFLiteClient not initialized. Call init() first.".

Definition default_inputShape : list nat := [1; 224; 224; 3].

Definition infer (input : list Byte.byte) (inputShape : option (list nat)) (s : State)
  : State * Returned Value :=
  match isInitialized (client s), worker (client s) with
  | true, Some w =>
      let '(p, s) := new_promise s in
      let f := client s in
      let id := S (messageId f) in
      let s := set_client (mkFields (worker f) (isInitialized f) (initPromise f)
                                    (<[id := InferCallback p]> (inferenceCallbacks f)) id) s in
      let s := log (ConsoleLog "[TFLiteClient] Sending inference request, input size:") s in
      (post (wid w) (MsgInfer input (default default_inputShape inputShape)) s, Adopts p)
  | _, _ => (s, Already (Rejected not_initialized_message))
  end.

(** ** [handleWorkerMessage] *)

(** [inferenceCallbacks.forEach(({ reject }) => reject(new Error(error)))].
    A JS [Map] is visited in insertion order and [gmap] in an order of its
    own; the callbacks settle distinct promise cells, so the order is seen
    only in where the init callback's console line lands. *)
Definition reject_all (error : string) (s : State) : State :=
  foldl (fun s kv => callback_reject kv.2 error s) s
        (map_to_list (inferenceCallbacks (client s))).

Definition clear_callbacks (s : State) : State :=
  let f := client s in
  set_client (mkFields (worker f) (isInitialized f) (initPromise f) ∅ (messageId f)) s.

Definition delete_callback (id : nat) (s : State) : State :=
  let f := client s in
  set_client (mkFields (worker f) (isInitialized f) (initPromise f)
                       (delete id (inferenceCallbacks f)) (messageId f)) s.

(** [output && output.length === 1 && output[0] === 1] *)
Definition is_init_indicator (output : option (list number)) : bool :=
  match output with
  | Some [x] => PrimFloat.eqb x 1%float
  | _ => false
  end.

Definition handleWorkerMessage (data : FromWorker) (s : State) : State :=
  match data with
  | MsgError error =>
      let s := log (ConsoleError "[TFLiteClient] Worker error:") s in
      clear_callbacks (reject_all error s)
  | MsgResult output inferenceTimeMs =>
      let id := if is_init_indicator output then 0 else messageId (client s) in
      match inferenceCallbacks (client s) !! id with
      | Some callback =>
          match id with
          | 0 => delete_callback id (callback_resolve callback (mkResult [] 0%float) s)
          | S _ =>
              match output with
              | None =>
                  (* [output.length] on [null]: the handler throws before resolving *)
                  log (Uncaught "TypeError: Cannot read properties of null (reading 'length')") s
              | Some out =>
                  let s := log (ConsoleLog "[TFLiteClient] Inference result received, output size:") s in
                  delete_callback id (callback_resolve callback (mkResult out inferenceTimeMs) s)
              end
          end
      | None =>
          log (ConsoleWarn "[TFLiteClient] Received result for unknown message ID:" id) s
      end
  | MsgOther _ => s
  end.

(** ** [worker.onerror] *)

Definition handleWorkerError (message : string) (s : State) : State :=
  match worker (client s) with
  | Some w =>
      let s := log (ConsoleError "[TFLiteClient] Worker error:") s in
      settle_promise (onerror_rejects w) (Rejected ("Worker error: " +:+ message)) s
  | None => s
  end.

(** ** [terminate] *)

Definition terminate (s : State) : State :=
  let s :=
    match worker (client s) with
    | Some w =>
        let s := log (ConsoleLog "[TFLiteClient] Terminating worker") s in
        let f := client s in
        mkState (mkFields None (isInitialized f) (initPromise f)
                          (inferenceCallbacks f) (messageId f))
                (promises s) (nextPromise s) (nextWorker s) (outbox s)
                (terminated s ++ [wid w]) (console s)
    | None => s
    end in
  let f := client s in
  set_client (mkFields (worker f) false None ∅ (messageId f)) s.

(** ** Sequences of calls and events on one client *)

Inductive Event :=
| EInit (env : Env) (modelUrl : string)
| EInfer (input : list Byte.byte) (inputShape : option (list nat))
| EMessage (data : FromWorker)
| EWorkerError (message : string)
| ETerminate.

Definition step (e : Event) (s : State) : State :=
  match e with
  | EInit env url => (init env url s).1
  | EInfer input shape => (infer input shape s).1
  | EMessage data => handleWorkerMessage data s
  | EWorkerError message => handleWorkerError message s
  | ETerminate => terminate s
  end.

Definition run (es : list Event) (s : State) : State :=
  foldl (fun s e => step e s) s es.

(** [n] calls of [init] issued back to back, with the promise each caller got. *)
Fixpoint init_calls (env : Env) (modelUrl : string) (n : nat) (s : State)
  : State * list (Returned Value) :=
  match n with
  | 0 => (s, [])
  | S n =>
      let '(s, r) := init env modelUrl s in
      let '(s, rs) := init_calls env modelUrl n s in
      (s, r :: rs)
  end.

(** The init messages found in an outbox, and those addressed to worker [w]. *)
Definition is_init (m : nat * ToWorker) : bool :=
  match m.2 with MsgInit _ => true | MsgInfer _ _ => false end.

Definition inits_to (w : nat) (ob : list (nat * ToWorker)) : nat :=
  length (filter (fun m => is_init m = true ∧ m.1 = w) ob).

(** The initializations in flight: init messages posted to a worker that
    has not been terminated. *)
Definition live_inits (s : State) : nat :=
  length (filter (fun m => is_init m = true ∧ m.1 ∉ terminated s) (outbox s)).

(** [get initialized()] *)
Definition initialized (s : State) : bool := isInitialized (client s).

End Client.

(* ================================================================== *)
(** * workers/tflite-worker.ts : the worker's message handler *)
(* ================================================================== *)

Module TFLiteWorker.
Import Promise.

(** The outcome of [loadTFLiteWasm]: the runtime initialises, aborts, the
    global [createTFLiteModule] is missing, or [importScripts] throws. *)
Inductive WasmOutcome :=
| WasmReady
| WasmAbort
| WasmMissing
| ImportThrows (message : string).

Inductive FetchOutcome :=
| FetchOk (modelBytes : list Byte.byte)
| FetchNotOk (statusText : string)
| FetchThrows (message : string).

(** The WASM module ([tflite.js], not part of the repository) and the
    network, as the handler uses them: [_loadModel] and [_runInference]
    return a status code, and the output buffer read after a run is a
    function of the loaded model and of the input copied in. *)
Record Runtime := mkRuntime {
  wasm : WasmOutcome;
  fetchModel : string -> FetchOutcome;
  _loadModel : list Byte.byte -> Z;
  _runInference : list Byte.byte -> list Byte.byte -> Z;
  readOutput : list Byte.byte -> list Byte.byte -> list number
}.

(** The worker's module-level variables; [modelBuffer] is the model region
    of the WASM heap. *)
Record State := mkState {
  tfliteModule : bool;
  isInitialized : bool;
  modelLoaded : bool;
  modelBuffer : list Byte.byte
}.

Definition fresh : State := mkState false false false [].

Definition error (message : string) : Client.FromWorker := Client.MsgError message.

(** [loadModel(modelUrl)] followed by the success message of the init case. *)
Definition loadModel (rt : Runtime) (modelUrl : string) (s : State)
  : State * Client.FromWorker :=
  if negb (tfliteModule s) then (s, error "TFLite module not initialized")
  else
    match fetchModel rt modelUrl with
    | FetchThrows message => (s, error message)
    | FetchNotOk statusText => (s, error ("Failed to fetch model: " +:+ statusText))
    | FetchOk modelBytes =>
        let s := mkState (tfliteModule s) (isInitialized s) (modelLoaded s) modelBytes in
        let result := _loadModel rt modelBytes in
        if (result =? 0)%Z then
          (mkState (tfliteModule s) (isInitialized s) true (modelBuffer s),
           Client.MsgResult (Some [1%float]) 0%float)
        else (s, error ("Failed to load model. Error code: " +:+ pretty result))
    end.

(** [runInference(input, inputShape)] followed by the result message. *)
Definition runInference (rt : Runtime) (input : list Byte.byte) (s : State)
  : Client.FromWorker :=
  if negb (tfliteModule s) then error "TFLite module not initialized"
  else if negb (modelLoaded s) then error "Model not loaded"
  else
    let result := _runInference rt (modelBuffer s) input in
    if (result =? 0)%Z then
      Client.MsgResult (Some (readOutput rt (modelBuffer s) input)) 0%float
    else error ("Inference failed. Error code: " +:+ pretty result).

(** [self.onmessage], one message handled to completion.  (The handler is
    [async]; the client posts [infer] only after the init result arrived, so
    turns of the handler do not interleave.) *)
Definition onmessage (rt : Runtime) (message : Client.ToWorker) (s : State)
  : State * Client.FromWorker :=
  match message with
  | Client.MsgInit modelUrl =>
      if isInitialized s then (s, Client.MsgResult None 0%float)
      else
        match wasm rt with
        | WasmReady =>
            let s := mkState true true (modelLoaded s) (modelBuffer s) in
            loadModel rt modelUrl s
        | WasmAbort => (s, error "Failed to initialize TFLite WASM runtime")
        | WasmMissing => (s, error "TFLite module not found. Ensure tflite.js is loaded.")
        | ImportThrows message => (s, error message)
        end
  | Client.MsgInfer input inputShape =>
      if negb (isInitialized s) || negb (modelLoaded s) then
        (s, error "Worker not initialized or model not loaded")
      else (s, runInference rt input s)
  end.

(** The worker handling a sequence of messages, each under the runtime
    conditions of its own turn; the replies in order. *)
Fixpoint onmessages (turns : list (Runtime * Client.ToWorker)) (s : State)
  : State * list Client.FromWorker :=
  match turns with
  | [] => (s, [])
  | (rt, message) :: rest =>
      let '(s, reply) := onmessage rt message s in
      let '(s, replies) := onmessages rest s in
      (s, reply :: replies)
  end.

End TFLiteWorker.

(* ================================================================== *)
(** * The client and its worker, connected by the two message queues *)
(* ================================================================== *)

Module Channel.
Import Promise.

Record System := mkSystem {
  ui : Client.State;
  workers : gmap nat TFLiteWorker.State;      (* by worker id; absent = fresh *)
  processed : gmap nat nat;                   (* messages each worker has handled *)
  inbox : list (nat * Client.FromWorker)      (* replies not yet dispatched, oldest first *)
}.

Definition start : System := mkSystem Client.initial ∅ ∅ [].

(** The messages posted to worker [w], oldest first. *)
Definition posted_to (w : nat) (ob : list (nat * Client.ToWorker)) : list Client.ToWorker :=
  omap (fun m => if decide (m.1 = w) then Some m.2 else None) ob.

Inductive Action :=
| Call (e : Client.Event)               (* a call on the client from the UI *)
| WorkerTurn (rt : TFLiteWorker.Runtime)  (* the live worker handles its next message *)
| ClientTurn.                           (* the client's onmessage handles the next reply *)

Definition act (a : Action) (sys : System) : System :=
  match a with
  | Call e => mkSystem (Client.step e (ui sys)) (workers sys) (processed sys) (inbox sys)
  | WorkerTurn rt =>
      match Client.worker (Client.client (ui sys)) with
      | None => sys
      | Some w =>
          let id := Client.wid w in
          let n := default 0 (processed sys !! id) in
          match posted_to id (Client.outbox (ui sys)) !! n with
          | None => sys
          | Some message =>
              let ws := default TFLiteWorker.fresh (workers sys !! id) in
              let '(ws, reply) := TFLiteWorker.onmessage rt message ws in
              mkSystem (ui sys) (<[id := ws]> (workers sys)) (<[id := S n]> (processed sys))
                       (inbox sys ++ [(id, reply)])
          end
      end
  | ClientTurn =>
      match inbox sys with
      | [] => sys
      | (id, reply) :: rest =>
          match Client.worker (Client.client (ui sys)) with
          | Some w =>
              if decide (Client.wid w = id) then
                mkSystem (Client.handleWorkerMessage reply (ui sys))
                         (workers sys) (processed sys) rest
              else mkSystem (ui sys) (workers sys) (processed sys) rest
          | None => mkSystem (ui sys) (workers sys) (processed sys) rest
          end
      end
  end.

Definition exec (acts : list Action) (sys : System) : System :=
  foldl (fun sys a => act a sys) sys acts.

(** One request made on its own: the call, the worker's turn, the client's
    turn. *)
Definition round (rt : TFLiteWorker.Runtime) (input : list Byte.byte) : list Action :=
  [Call (Client.EInfer input None); WorkerTurn rt; ClientTurn].

(** Requests made one after the other, each awaited before the next. *)
Definition rounds (rt : TFLiteWorker.Runtime) (inputs : list (list Byte.byte)) : list Action :=
  concat (round rt <$> inputs).

End Channel.

(* ================================================================== *)
(** * lib/tflite/wasmClient.ts : imageDataToTensor *)
(* ================================================================== *)

Module Tensor.
Import Promise.

(** [ImageData]: [data] is a [Uint8ClampedArray] of RGBA bytes. *)
Record ImageData := mkImageData {
  width : nat;
  height : nat;
  data : list Byte.byte
}.

(** The canvas API as [imageDataToTensor] uses it: whether each
    [getContext('2d')] yields a context, and the pixels read back by
    [getImageData(0, 0, w, h)] after the source image was put on the
    temporary canvas and drawn, scaled, onto the [w] x [h] canvas (the
    browser's resampling; [getImageData] throws on an empty rectangle). *)
Record Canvas := mkCanvas {
  mainContext : bool;
  tempContext : bool;
  drawAndRead : ImageData -> nat -> nat -> Completion ImageData
}.

(** [a[i]] read from a typed array and stored into a [Uint8Array]:
    out of range reads [undefined], which is stored as 0. *)
Definition byteAt (a : list Byte.byte) (i : nat) : Byte.byte :=
  default Byte.x00 (a !! i).

(** The loop [for (let i = 0; i < resized.data.length; i += 4) { ... }],
    started at [i] and [rgbIndex]; [fuel] bounds the number of iterations.
    A write past the end of a typed array is ignored, as is stdpp's
    list insert. *)
Fixpoint rgba_loop (fuel : nat) (src : list Byte.byte) (i rgbIndex : nat)
         (rgbData : list Byte.byte) : list Byte.byte :=
  match fuel with
  | 0 => rgbData
  | S fuel =>
      if decide (i < length src) then
        let rgbData := <[rgbIndex := byteAt src i]> rgbData in             (* R *)
        let rgbData := <[rgbIndex + 1 := byteAt src (i + 1)]> rgbData in   (* G *)
        let rgbData := <[rgbIndex + 2 := byteAt src (i + 2)]> rgbData in   (* B *)
        rgba_loop fuel src (i + 4) (rgbIndex + 3) rgbData
      else rgbData
  end.

Definition imageDataToTensor (cv : Canvas) (imageData : ImageData)
           (targetWidth targetHeight : option nat) : Completion (list Byte.byte) :=
  let targetWidth := default 224 targetWidth in
  let targetHeight := default 224 targetHeight in
  if negb (mainContext cv) then Throws "Failed to get canvas context"
  else if negb (tempContext cv) then
    Throws "TypeError: Cannot read properties of null (reading 'putImageData')"
  else
    match drawAndRead cv imageData targetWidth targetHeight with
    | Throws message => Throws message
    | Returns resized =>
        let rgbData := replicate (targetWidth * targetHeight * 3) Byte.x00 in
        Returns (rgba_loop (length (data resized)) (data resized) 0 0 rgbData)
    end.

(** The DOM as [dataUrlToTensor] uses it: the decoding of the data URL by
    [new Image()] ([None]: [onerror] fires), whether [getContext('2d')] on
    its canvas yields a context, and the pixels read back after the image was
    drawn scaled onto that canvas. *)
Record Dom := mkDom {
  decodeImage : string -> option ImageData;
  outerContext : bool;
  drawImageAndRead : ImageData -> nat -> nat -> Completion ImageData
}.

(** [dataUrlToTensor]: how the returned promise ends up.  [reject] is called
    from [onerror] and for a missing context; an exception thrown inside the
    [onload] handler (by [getImageData] or by [imageDataToTensor]) is not
    caught by the promise, which then stays pending. *)
Definition dataUrlToTensor (dom : Dom) (cv : Canvas) (dataUrl : string)
           (targetWidth targetHeight : option nat) : Cell (list Byte.byte) :=
  let w := default 224 targetWidth in
  let h := default 224 targetHeight in
  match decodeImage dom dataUrl with
  | None => Rejected "Failed to load image from dataURL"
  | Some img =>
      if negb (outerContext dom) then Rejected "Failed to get canvas context"
      else
        match drawImageAndRead dom img w h with
        | Throws _ => Pending
        | Returns imageData =>
            match imageDataToTensor cv imageData (Some w) (Some h) with
            | Returns tensor => Fulfilled tensor
            | Throws _ => Pending
            end
        end
  end.

End Tensor.

(* ================================================================== *)
(** * lib/storage.ts : grading history in localStorage *)
(* ================================================================== *)

Module Storage.
Import Promise.

Record GradingRecord := mkRecord {
  id : string;
  imageUrl : string;
  predictions : list number;
  topClass : Z;
  confidence : number;
  inferenceTime : number;
  timestamp : Z;
  grade : option string
}.

(** [Omit<GradingRecord, 'id' | 'timestamp'>] *)
Record NewRecord := mkNewRecord {
  new_imageUrl : string;
  new_predictions : list number;
  new_topClass : Z;
  new_confidence : number;
  new_inferenceTime : number;
  new_grade : option string
}.

(** What [localStorage.getItem(STORAGE_KEY)] holds, by what [JSON.parse]
    makes of it: nothing (or the empty string), a string that does not
    parse, or the serialised array of records. *)
Inductive Item :=
| NoData
| Malformed (raw : string)
| Json (history : list GradingRecord).

Record State := mkState {
  item : Item;
  console : list Client.LogEntry
}.

(** The browser's side of [setItem]: whether writing this array is accepted
    (it throws when the quota is exceeded or storage is disabled). *)
Definition Quota := list GradingRecord -> bool.

Definition unlimited : Quota := fun _ => true.

(** The readings [saveGradingRecord] takes from the environment:
    [Date.now()] inside [generateId], the nine base-36 characters of
    [Math.random()], and [Date.now()] for the timestamp. *)
Record Clock := mkClock {
  now_id : Z;
  random36 : string;
  now_timestamp : Z
}.

Definition log (e : Client.LogEntry) (s : State) : State :=
  mkState (item s) (console s ++ [e]).

Definition getGradingHistory (s : State) : State * list GradingRecord :=
  match item s with
  | NoData => (s, [])
  | Json history => (s, history)
  | Malformed _ => (log (Client.ConsoleError "[Storage] Failed to load history:") s, [])
  end.

(** The history a reader sees. *)
Definition history (s : State) : list GradingRecord := (getGradingHistory s).2.

Definition generateId (clk : Clock) : string :=
  pretty (now_id clk) +:+ "-" +:+ random36 clk.

Definition retention : nat := 100.

(** [{ ...record, id: generateId(), timestamp: Date.now() }] *)
Definition stamp (clk : Clock) (record : NewRecord) : GradingRecord :=
  mkRecord (generateId clk) (new_imageUrl record) (new_predictions record)
           (new_topClass record) (new_confidence record) (new_inferenceTime record)
           (now_timestamp clk) (new_grade record).

Definition saveGradingRecord (quota : Quota) (clk : Clock) (record : NewRecord) (s : State)
  : State * Completion GradingRecord :=
  let '(s, history) := getGradingHistory s in
  let newRecord := stamp clk record in
  let history := newRecord :: history in          (* unshift *)
  let limitedHistory := take retention history in  (* slice(0, 100) *)
  if quota limitedHistory then
    let s := mkState (Json limitedHistory) (console s) in
    (log (Client.ConsoleLog "[Storage] Saved grading record:") s, Returns newRecord)
  else
    (log (Client.ConsoleError "[Storage] Failed to save record:") s,
     Throws "Failed to save grading record").

Definition keeps (id0 : string) (record : GradingRecord) : bool :=
  negb (String.eqb (id record) id0).

Definition deleteGradingRecord (quota : Quota) (id0 : string) (s : State)
  : State * Completion unit :=
  let '(s, history) := getGradingHistory s in
  let filtered := List.filter (keeps id0) history in
  if quota filtered then
    let s := mkState (Json filtered) (console s) in
    (log (Client.ConsoleLog "[Storage] Deleted record:") s, Returns tt)
  else
    (log (Client.ConsoleError "[Storage] Failed to delete record:") s, Returns tt).

(** [localStorage.removeItem(STORAGE_KEY)]; removing has no quota to exceed. *)
Definition clearGradingHistory (s : State) : State * Completion unit :=
  (log (Client.ConsoleLog "[Storage] Cleared all history") (mkState NoData (console s)),
   Returns tt).

(** [history.find(record => record.id === id) || null] *)
Definition getGradingRecord (id0 : string) (s : State) : State * option GradingRecord :=
  let '(s, history) := getGradingHistory s in
  (s, List.find (fun record => String.eqb (id record) id0) history).

Record Stats := mkStats {
  totalRecords : nat;
  oldestRecord : option Z;
  newestRecord : option Z
}.

(** [record?.timestamp || null]: no record, or a timestamp of 0, gives [null]. *)
Definition timestamp_or_null (record : option GradingRecord) : option Z :=
  match record with
  | Some r => if (timestamp r =? 0)%Z then None else Some (timestamp r)
  | None => None
  end.

Definition getStorageStats (s : State) : State * Stats :=
  let '(s, history) := getGradingHistory s in
  (s, mkStats (length history)
              (timestamp_or_null (last history))
              (timestamp_or_null (head history))).

(** The calls that write the history, and a sequence of them. *)
Inductive Op :=
| Save (clk : Clock) (record : NewRecord)
| Delete (id0 : string)
| Clear.

Definition apply (quota : Quota) (op : Op) (s : State) : State :=
  match op with
  | Save clk record => (saveGradingRecord quota clk record s).1
  | Delete id0 => (deleteGradingRecord quota id0 s).1
  | Clear => (clearGradingHistory s).1
  end.

Definition apply_all (quota : Quota) (ops : list Op) (s : State) : State :=
  foldl (fun s op => apply quota op s) s ops.


End Storage.

(* ================================================================== *)
(** * lib/tflite/loadModel.ts : the cached model loader *)
(* ================================================================== *)

Module LoadModel.
Import Promise.

(** A loaded [tf.GraphModel], by a handle. *)
Definition GraphModel := nat.

(** The module-level variables, the promise cells, and the number of load
    sequences begun so far ([initializeTFJS] then [tf.loadGraphModel]). *)
Record State := mkState {
  modelInstance : option GraphModel;
  isLoading : bool;
  loadPromise : option PromiseId;
  promises : gmap nat (Cell GraphModel);
  nextPromise : nat;
  loadsStarted : nat
}.

Definition initial : State := mkState None false None ∅ 0 0.

(** The synchronous part of a call of [loadModel]: up to the first [await]
    of the load it may start. *)
Definition loadModel (hasWindow : bool) (s : State) : State * Returned GraphModel :=
  if negb hasWindow then
    (s, Already (Rejected "Model loading can only occur in browser context"))
  else
    match modelInstance s with
    | Some model => (s, Already (Fulfilled model))
    | None =>
        match isLoading s, loadPromise s with
        | true, Some p => (s, Adopts p)
        | _, _ =>
            let p := nextPromise s in
            (mkState (modelInstance s) true (Some p)
                     (<[p := Pending]> (promises s)) (S p) (S (loadsStarted s)),
             Adopts p)
        end
    end.

(** The rest of the load in flight, run when its awaits complete with
    [outcome]: the [try] stores the model, the [catch] rethrows with a
    prefixed message, the [finally] clears [isLoading] and [loadPromise]. *)
Definition finish (outcome : Completion GraphModel) (s : State) : State :=
  match loadPromise s with
  | None => s
  | Some p =>
      match outcome with
      | Returns model =>
          mkState (Some model) false None
                  (settle p (Fulfilled model) (promises s)) (nextPromise s) (loadsStarted s)
      | Throws message =>
          mkState None false None
                  (settle p (Rejected ("Failed to load model: " +:+ message)) (promises s))
                  (nextPromise s) (loadsStarted s)
      end
  end.

(** [n] calls issued back to back. *)
Fixpoint loadModel_calls (hasWindow : bool) (n : nat) (s : State)
  : State * list (Returned GraphModel) :=
  match n with
  | 0 => (s, [])
  | S n =>
      let '(s, r) := loadModel hasWindow s in
      let '(s, rs) := loadModel_calls hasWindow n s in
      (s, r :: rs)
  end.

(** [await loadModel()] with no other code running meanwhile: the call, then
    the completion of the load it waits for, whose promise settles as the
    load itself completes. *)
Definition await_loadModel (hasWindow : bool) (outcome : Completion GraphModel) (s : State)
  : State * Completion GraphModel :=
  let '(s, r) := loadModel hasWindow s in
  match r with
  | Already (Fulfilled model) => (s, Returns model)
  | Already (Rejected message) => (s, Throws message)
  | Already Pending | Adopts _ =>
      (finish outcome s,
       match outcome with
       | Returns model => Returns model
       | Throws message => Throws ("Failed to load model: " +:+ message)
       end)
  end.

Definition getModelInstance (s : State) : option GraphModel := modelInstance s.

Definition isModelLoaded (s : State) : bool :=
  match modelInstance s with Some _ => true | None => false end.

Definition clearModelCache (s : State) : State :=
  mkState None (isLoading s) (loadPromise s) (promises s) (nextPromise s) (loadsStarted s).

End LoadModel.

(* ================================================================== *)
(** * lib/tflite/runInference.ts : the TF.js inference pipeline *)
(* ================================================================== *)

Module Pipeline.
Import Promise.

Record InferenceResult := mkResult {
  predictions : list number;
  inferenceTimeMs : Z;
  modelLoaded : bool
}.

Record PreprocessConfig := mkConfig {
  inputSize : option nat;
  normalize : option bool;
  normalizationRange : option (number * number);
  channels : option nat
}.

Record InferenceOptions := mkOptions {
  logDetails : option bool;
  preprocessConfig : PreprocessConfig
}.

Definition default_options : InferenceOptions :=
  mkOptions None (mkConfig None None None None).

(** A tensor, by its values. *)
Definition Tensor := list number.

(** What [model.predict] hands back: one tensor or an array of tensors. *)
Inductive Predicted :=
| One (t : Tensor)
| Many (ts : list Tensor).

(** TensorFlow.js, the DOM and the clock as the pipeline uses them:
    [preprocess] is [preprocessFromDataUrl] (image decoding, canvas,
    resizing), [loads] the outcome of a model load begun now, and
    [elapsedMs] the rounded time measured around the run on an image. *)
Record Env := mkEnv {
  hasWindow : bool;
  loads : Completion LoadModel.GraphModel;
  preprocess : string -> PreprocessConfig -> Completion Tensor;
  predict : LoadModel.GraphModel -> Tensor -> Completion Predicted;
  tensorData : Tensor -> Completion (list number);
  elapsedMs : string -> Z
}.

(** [(Array.isArray(output) ? output[0] : output)], [undefined] as [None]. *)
Definition first_output (o : Predicted) : option Tensor :=
  match o with
  | One t => Some t
  | Many ts => head ts
  end.

(** The body of the [try] block of [runInference]. *)
Definition runInference_try (env : Env) (dataUrl : string) (options : InferenceOptions)
           (s : LoadModel.State) : LoadModel.State * Completion InferenceResult :=
  let '(s, loaded) := LoadModel.await_loadModel (hasWindow env) (loads env) s in
  match loaded with
  | Throws message => (s, Throws message)
  | Returns model =>
      match preprocess env dataUrl (preprocessConfig options) with
      | Throws message => (s, Throws message)
      | Returns inputTensor =>
          match predict env model inputTensor with
          | Throws message => (s, Throws message)
          | Returns output =>
              match first_output output with
              | None => (s, Throws "Model prediction returned no output")
              | Some outputTensor =>
                  match tensorData env outputTensor with
                  | Throws message => (s, Throws message)
                  | Returns predictionsData =>
                      (s, Returns (mkResult predictionsData (elapsedMs env dataUrl) true))
                  end
              end
          end
      end
  end.

(** [runInference]: the browser guard, then the [try] with its [catch]
    rethrowing under the prefix.  (The [finally] disposes the tensors, which
    changes no value modelled here.) *)
Definition runInference (env : Env) (dataUrl : string) (options : InferenceOptions)
           (s : LoadModel.State) : LoadModel.State * Completion InferenceResult :=
  if negb (hasWindow env) then (s, Throws "Inference can only run in browser context")
  else
    match runInference_try env dataUrl options s with
    | (s, Throws message) => (s, Throws ("Inference failed: " +:+ message))
    | (s, Returns r) => (s, Returns r)
    end.

(** The result pushed for an image whose inference threw. *)
Definition failed : InferenceResult := mkResult [] 0 false.

(** The loop [for (const dataUrl of dataUrls) { try ... catch ... }]. *)
Fixpoint batch_loop (env : Env) (dataUrls : list string) (options : InferenceOptions)
         (s : LoadModel.State) (results : list InferenceResult)
  : LoadModel.State * list InferenceResult :=
  match dataUrls with
  | [] => (s, results)
  | dataUrl :: rest =>
      let quiet := mkOptions (Some false) (preprocessConfig options) in
      match runInference env dataUrl quiet s with
      | (s, Returns result) => batch_loop env rest options s (results ++ [result])
      | (s, Throws _) => batch_loop env rest options s (results ++ [failed])
      end
  end.

(** What the loop pushes for one image, run in state [s]. *)
Definition pushed (env : Env) (options : InferenceOptions) (s : LoadModel.State)
           (dataUrl : string) : InferenceResult :=
  match (runInference env dataUrl (mkOptions (Some false) (preprocessConfig options)) s).2 with
  | Returns result => result
  | Throws _ => failed
  end.

Definition runBatchInference (env : Env) (dataUrls : list string) (options : InferenceOptions)
           (s : LoadModel.State) : LoadModel.State * Completion (list InferenceResult) :=
  match LoadModel.await_loadModel (hasWindow env) (loads env) s with
  | (s, Throws message) => (s, Throws message)
  | (s, Returns _) =>
      let '(s, results) := batch_loop env dataUrls options s [] in
      (s, Returns results)
  end.

(** [warmupModel]: [canvasContext] tells whether the dummy canvas yields a
    2D context and [dummyDataUrl] is what [canvas.toDataURL('image/jpeg')]
    returns for the black 224 x 224 image. *)
Definition warmupModel (env : Env) (canvasContext : bool) (dummyDataUrl : string)
           (s : LoadModel.State) : LoadModel.State * bool :=
  if negb canvasContext then (s, false)
  else
    match runInference env dummyDataUrl
            (mkOptions (Some false) (mkConfig None None None None)) s with
    | (s, Returns _) => (s, true)
    | (s, Throws _) => (s, false)
    end.

End Pipeline.

(* ================================================================== *)
(** * lib/tflite/index.ts : inference through the backend API *)
(* ================================================================== *)

Module Backend.
Import Promise.

Record InferenceResult := mkResult {
  predictions : list number;
  topClass : Z;
  confidence : option number;      (* [undefined] when nothing supplies it *)
  inferenceTime : number
}.

(** The fields read from the response body; each may be missing. *)
Record ResponseData := mkData {
  data_predictions : option (list number);
  data_confidence : option number;
  data_inferenceTime : option number
}.

Inductive FetchOutcome :=
| NetworkError (message : string)
| Response (ok : bool) (status : nat) (json : Completion ResponseData).

Record Env := mkEnv {
  fetch : string -> FetchOutcome;     (* POST /api/inference with this image *)
  totalTime : string -> number        (* Math.round(performance.now() - startTime) *)
}.

(** Truthiness of a number: [0], [-0] and [NaN] are falsy. *)
Definition truthy (x : number) : bool :=
  negb (PrimFloat.eqb x 0%float || PrimFloat.is_nan x).

(** [a || b] where [a] may be [undefined]. *)
Definition or_else (a : option number) (b : number) : number :=
  match a with
  | Some x => if truthy x then x else b
  | None => b
  end.

(** [Math.max(...xs)] *)
Definition math_max (xs : list number) : number :=
  fold_left (fun acc x =>
               if PrimFloat.is_nan acc || PrimFloat.is_nan x then PrimFloat.nan
               else if PrimFloat.ltb acc x then x else acc)
            xs PrimFloat.neg_infinity.

(** [xs.indexOf(x)], by strict equality; [-1] when absent. *)
Fixpoint indexOf_from (i : Z) (x : number) (xs : list number) : Z :=
  match xs with
  | [] => (-1)%Z
  | y :: ys => if PrimFloat.eqb y x then i else indexOf_from (i + 1)%Z x ys
  end.

Definition indexOf (x : number) (xs : list number) : Z := indexOf_from 0%Z x xs.

(** [xs[i]] *)
Definition at_index (xs : list number) (i : Z) : option number :=
  if (i <? 0)%Z then None else xs !! Z.to_nat i.

Definition runInference (env : Env) (imageDataUrl : string) : Completion InferenceResult :=
  match fetch env imageDataUrl with
  | NetworkError message => Throws message
  | Response false status _ => Throws ("Backend inference failed: " +:+ pretty status)
  | Response true _ (Throws message) => Throws message
  | Response true _ (Returns data) =>
      let totalTime := totalTime env imageDataUrl in
      let predictions :=
        match data_predictions data with
        | Some ps => ps
        | None => [or_else (data_confidence data) 0.5%float]
        end in
      let topClass := indexOf (math_max predictions) predictions in
      let confidence :=
        match data_confidence data with
        | Some c => if truthy c then Some c else at_index predictions topClass
        | None => at_index predictions topClass
        end in
      Returns (mkResult predictions topClass confidence
                        (or_else (data_inferenceTime data) totalTime))
  end.

(** [Promise.all]: fulfilled with all the values when every input is
    fulfilled, rejected as soon as one input is rejected.  (The reason is
    that of the input rejected first in time; the first in list order
    stands for it here.) *)
Fixpoint promise_all {A} (settled : list (Completion A)) : Completion (list A) :=
  match settled with
  | [] => Returns []
  | Throws message :: _ => Throws message
  | Returns a :: rest =>
      match promise_all rest with
      | Returns values => Returns (a :: values)
      | Throws message => Throws message
      end
  end.

Definition runBatchInference (env : Env) (imageDataUrls : list string)
  : Completion (list InferenceResult) :=
  promise_all (List.map (fun url => runInference env url) imageDataUrls).

End Backend.

(* ================================================================== *)
(** * app/api/inference/route.ts : the inference endpoint *)
(* ================================================================== *)

Module Route.
Import Promise.

(** [body.image] as the handler tests it. *)
Inductive ImageField :=
| ImageMissing
| ImageNotString (truthy : bool)
| ImageString (image : string).

Record Body := mkBody {
  image : ImageField;
  user_id : option nat
}.

(** What the Python backend does with a request: [fetch] throws, the
    response is not ok, its body is not JSON, or it is the JSON object
    [{success, error, output, saved, history_id}] (fields may be missing). *)
Inductive PythonOutcome :=
| FetchFails (message : string)
| NotOk (status : nat) (errorText : string)
| NotJson (message : string)
| Data (success : bool) (error : option string) (output : option string)
       (saved : option bool) (history_id : option nat).

(** The JSON bodies the handler sends. *)
Inductive ResponseBody :=
| ErrorOnly (error : string)
| ErrorMessage (error : string) (message : string)
| Output (output : string) (saved : option bool) (history_id : option nat).

Record Response := mkResponse {
  status : nat;
  body : ResponseBody
}.

(** [a || b] on strings. *)
Definition string_or (a : option string) (b : string) : string :=
  match a with
  | Some "" | None => b
  | Some x => x
  end.

(** [runModelInference]: the request is recorded in [calls]. *)
Definition runModelInference (python : string -> option nat -> PythonOutcome)
           (imageBase64 : string) (userId : option nat) (calls : list (string * option nat))
  : list (string * option nat) * Completion (string * option bool * option nat) :=
  let calls := calls ++ [(imageBase64, userId)] in
  let wrap message := Throws ("Failed to connect to Python backend: " +:+ message) in
  match python imageBase64 userId with
  | FetchFails message => (calls, wrap message)
  | NotOk status errorText =>
      (calls, wrap ("Python backend returned " +:+ pretty status +:+ ": " +:+ errorText))
  | NotJson message => (calls, wrap message)
  | Data false error _ _ _ => (calls, wrap (string_or error "Python backend inference failed"))
  | Data true _ None _ _ =>
      (calls, wrap "Cannot read properties of undefined (reading 'total_bunches')")
  | Data true _ (Some output) saved history_id => (calls, Returns (output, saved, history_id))
  end.

(** [POST]: [request] is what [request.json()] yields. *)
Definition POST (python : string -> option nat -> PythonOutcome) (request : Completion Body)
           (calls : list (string * option nat)) : list (string * option nat) * Response :=
  match request with
  | Throws message => (calls, mkResponse 500 (ErrorMessage "Inference failed" message))
  | Returns body =>
      match image body with
      | ImageMissing | ImageNotString _ | ImageString "" =>
          (calls, mkResponse 400 (ErrorOnly "Missing or invalid image data"))
      | ImageString image =>
          match runModelInference python image (user_id body) calls with
          | (calls, Returns (output, saved, history_id)) =>
              (calls, mkResponse 200 (Output output saved history_id))
          | (calls, Throws message) =>
              (calls, mkResponse 500 (ErrorMessage "Inference failed" message))
          end
      end
  end.


End Route.

(* ================================================================== *)
(** * components/camera-capture.tsx : the center-square crop *)
(* ================================================================== *)

Module Crop.

(** The source rectangle passed to [drawImage]: [sx], [sy] and the side
    [size], for a frame of [width] x [height] pixels.  Halving an integer is
    exact in a JS number, so the offsets are the rationals themselves. *)
Record Rect := mkRect {
  sx : Q;
  sy : Q;
  size : nat
}.

Definition center_square (width height : nat) : Rect :=
  let size := Nat.min width height in
  mkRect (Qmake (Z.of_nat (width - size)) 2) (Qmake (Z.of_nat (height - size)) 2) size.

End Crop.

(* ================================================================== *)
(** * Concrete runtimes and call sequences used in the examples *)
(* ================================================================== *)

Module Scenario.
Import Promise.

Definition modelUrl : string := "/models/my_model.tflite".

Definition modelBytes : list Byte.byte := [Byte.x54; Byte.x46; Byte.x4c; Byte.x33].

(** Two class scores, decided by the first input byte. *)
Definition scores (model input : list Byte.byte) : list number :=
  match input with
  | Byte.x00 :: _ => [0.875%float; 0.125%float]
  | _ => [0.25%float; 0.75%float]
  end.

(** Everything works. *)
Definition working : TFLiteWorker.Runtime :=
  TFLiteWorker.mkRuntime TFLiteWorker.WasmReady (fun _ => TFLiteWorker.FetchOk modelBytes)
                         (fun _ => 0%Z) (fun _ _ => 0%Z) scores.

(** The model file cannot be fetched. *)
Definition model_missing : TFLiteWorker.Runtime :=
  TFLiteWorker.mkRuntime TFLiteWorker.WasmReady (fun _ => TFLiteWorker.FetchNotOk "Not Found")
                         (fun _ => 0%Z) (fun _ _ => 0%Z) scores.

(** The interpreter reports status 1 on a run. *)
Definition failing_run : TFLiteWorker.Runtime :=
  TFLiteWorker.mkRuntime TFLiteWorker.WasmReady (fun _ => TFLiteWorker.FetchOk modelBytes)
                         (fun _ => 0%Z) (fun _ _ => 1%Z) scores.

Definition imageA : list Byte.byte := [Byte.x00; Byte.x00; Byte.x00].
Definition imageB : list Byte.byte := [Byte.xff; Byte.xff; Byte.xff].

(** [init], the worker's turn, the client's turn: the client gets ready. *)
Definition get_ready : list Channel.Action :=
  [Channel.Call (Client.EInit Client.browser modelUrl);
   Channel.WorkerTurn working; Channel.ClientTurn].

(** The same with a worker that fails to load the model. *)
Definition fail_to_load : list Channel.Action :=
  [Channel.Call (Client.EInit Client.browser modelUrl);
   Channel.WorkerTurn model_missing; Channel.ClientTurn].

(** A canvas that hands back a fixed image of two pixels. *)
Definition two_pixels : Tensor.ImageData :=
  Tensor.mkImageData 2 1
    [Byte.x0a; Byte.x14; Byte.x1e; Byte.xff; Byte.x28; Byte.x32; Byte.x3c; Byte.x80].

Definition canvas : Tensor.Canvas :=
  Tensor.mkCanvas true true (fun _ _ _ => Returns two_pixels).

(** Three images to grade; the second one is not an image. *)
Definition good1 : string := "data:image/jpeg;base64,AAAA".
Definition bad : string := "data:,".
Definition good2 : string := "data:image/jpeg;base64,BBBB".

(** A backend that rejects the bad image with status 400. *)
Definition backend : Backend.Env :=
  Backend.mkEnv
    (fun image =>
       if String.eqb image bad then Backend.Response false 400 (Throws "no body")
       else Backend.Response true 200
              (Returns (Backend.mkData (Some [0.125%float; 0.875%float])
                                       (Some 0.875%float) None)))
    (fun _ => 12%float).

(** A TF.js pipeline in which the bad image fails to decode. *)
Definition pipeline : Pipeline.Env :=
  Pipeline.mkEnv true (Returns 7)
    (fun dataUrl _ =>
       if String.eqb dataUrl bad then Throws "Failed to load image from dataURL"
       else Returns [1%float; 0%float])
    (fun _ t => Returns (Pipeline.One [0.125%float; 0.875%float]))
    (fun t => Returns t)
    (fun _ => 12%Z).

Definition record : Storage.NewRecord :=
  Storage.mkNewRecord good1 [0.125%float; 0.875%float] 1 0.875%float 12%float None.

Definition clock : Storage.Clock := Storage.mkClock 1700000000000 "k3j9x0a2b" 1700000000000.

End Scenario.


(* ================================================================== *)
(** * Properties of the worker channel *)
(* ================================================================== *)

Import Promise.

(** ** Notions used in the statements *)

(** What [reject(new Error(e))] makes of a cell. *)
Definition rejected_with {A} (e : string) (c : Cell A) : Cell A :=
  match c with
  | Pending => Rejected e
  | c => c
  end.

(** The part of the state that decides where init messages go. *)
Definition skeleton (s : Client.State) :=
  (Client.worker (Client.client s), Client.initPromise (Client.client s),
   Client.outbox s, Client.terminated s, Client.nextWorker s).

(** Every posted message goes to a worker already created; a worker gets at
    most one init message; a worker other than the current one has been
    terminated; the current worker was created by the [init] whose promise
    is stored. *)
Definition skeleton_inv
  (sk : option Client.Worker * option PromiseId * list (nat * Client.ToWorker) * list nat * nat)
  : Prop :=
  let '(w, ip, ob, tm, nw) := sk in
  (forall m, m ∈ ob -> m.1 < nw)
  /\ (forall k, Client.inits_to k ob <= 1)
  /\ (forall k, k < nw -> k ∈ tm \/ exists wk, w = Some wk /\ Client.wid wk = k)
  /\ (forall wk, w = Some wk -> ip <> None /\ Client.wid wk < nw).

Definition channel_inv (s : Client.State) : Prop := skeleton_inv (skeleton s).

(** The promises settled by the callbacks of a callback list. *)
Definition targets (l : list (nat * Client.Callback)) : list PromiseId :=
  (fun kv => Client.callback_promise kv.2) <$> l.

(** Only [terminate] clears the stored init promise. *)
Definition no_terminate (es : list Client.Event) : Prop :=
  Forall (fun e => e <> Client.ETerminate) es.

(** What holds of the client in every state it can reach: a callback is
    stored under a key no larger than the message counter, key 0 holds the
    init callback and the other keys infer callbacks, and its promise has been
    created; the init callback is stored only while there is a worker; the
    initialized flag is on only while there is a worker; every promise cell
    has an identifier below the next one to be handed out. *)
Definition client_inv (s : Client.State) : Prop :=
  (forall k cb, Client.inferenceCallbacks (Client.client s) !! k = Some cb ->
     k <= Client.messageId (Client.client s)
     /\ (k = 0 -> exists p, cb = Client.InitCallback p)
     /\ (k <> 0 -> exists p, cb = Client.InferCallback p)
     /\ Client.callback_promise cb < Client.nextPromise s)
  /\ (Client.inferenceCallbacks (Client.client s) !! 0 <> None ->
      Client.worker (Client.client s) <> None)
  /\ (Client.isInitialized (Client.client s) = true -> Client.worker (Client.client s) <> None)
  /\ (forall p c, Client.promises s !! p = Some c -> p < Client.nextPromise s).


(** The invariant on the components it reads. *)
Definition fields_inv (f : Client.Fields) (ps : gmap nat (Cell Client.Value)) (np : nat) : Prop :=
  (forall k cb, Client.inferenceCallbacks f !! k = Some cb ->
     k <= Client.messageId f
     /\ (k = 0 -> exists p, cb = Client.InitCallback p)
     /\ (k <> 0 -> exists p, cb = Client.InferCallback p)
     /\ Client.callback_promise cb < np)
  /\ (Client.inferenceCallbacks f !! 0 <> None -> Client.worker f <> None)
  /\ (Client.isInitialized f = true -> Client.worker f <> None)
  /\ (forall p c, ps !! p = Some c -> p < np).

(** What holds of the worker in every state it can reach: a loaded model
    implies an initialized runtime, which implies that the module is there. *)
Definition worker_inv (s : TFLiteWorker.State) : Prop :=
  (TFLiteWorker.modelLoaded s = true -> TFLiteWorker.isInitialized s = true)
  /\ (TFLiteWorker.isInitialized s = true -> TFLiteWorker.tfliteModule s = true).

(** The replies of a worker that is initialized without a model. *)
Definition stuck_reply (turn : TFLiteWorker.Runtime * Client.ToWorker) : Client.FromWorker :=
  match turn.2 with
  | Client.MsgInit _ => Client.MsgResult None 0%float
  | Client.MsgInfer _ _ => Client.MsgError "Worker not initialized or model not loaded"
  end.

(** A ready client whose worker [w], in state [ws] with a model loaded, has
    handled every message posted to it, with no reply waiting. *)
Definition synced (sys : Channel.System) (w : Client.Worker) (ws : TFLiteWorker.State) : Prop :=
  Client.isInitialized (Client.client (Channel.ui sys)) = true
  /\ Client.worker (Client.client (Channel.ui sys)) = Some w
  /\ Channel.inbox sys = []
  /\ default 0 (Channel.processed sys !! Client.wid w)
     = length (Channel.posted_to (Client.wid w) (Client.outbox (Channel.ui sys)))
  /\ default TFLiteWorker.fresh (Channel.workers sys !! Client.wid w) = ws
  /\ TFLiteWorker.tfliteModule ws = true
  /\ TFLiteWorker.isInitialized ws = true
  /\ TFLiteWorker.modelLoaded ws = true.

(** ** Promise cells *)

Lemma settle_lookup {A} (p q : PromiseId) (o : Cell A) (store : gmap nat (Cell A)) :
  settle p o store !! q =
  if decide (p = q) then
    match store !! q with Some Pending => Some o | c => c end
  else store !! q.
Proof.
  unfold settle. case_decide as Hpq.
  - subst q. destruct (store !! p) as [[| |]|] eqn:E; rewrite ?E; try done.
    by rewrite lookup_insert_eq.
  - destruct (store !! p) as [[| |]|]; try done.
    by rewrite lookup_insert_ne.
Qed.

Lemma settle_pending {A} (p : PromiseId) (o : Cell A) (store : gmap nat (Cell A)) :
  store !! p = Some Pending -> settle p o store !! p = Some o.
Proof. intros H. rewrite settle_lookup, decide_True by done. by rewrite H. Qed.

Lemma settle_other {A} (p q : PromiseId) (o : Cell A) (store : gmap nat (Cell A)) :
  p ≠ q -> settle p o store !! q = store !! q.
Proof. intros H. by rewrite settle_lookup, decide_False. Qed.

(** ** The guard of [infer] *)

Lemma infer_guard input shape s :
  Client.isInitialized (Client.client s) = false ∨ Client.worker (Client.client s) = None ->
  Client.infer input shape s = (s, Already (Rejected Client.not_initialized_message)).
Proof.
  unfold Client.infer. intros [H | H]; rewrite H; [done |].
  by destruct (Client.isInitialized _).
Qed.

Lemma infer_ready input shape s w :
  Client.isInitialized (Client.client s) = true ->
  Client.worker (Client.client s) = Some w ->
  exists s',
    Client.infer input shape s = (s', Adopts (Client.nextPromise s))
    /\ Client.outbox s' =
       Client.outbox s ++ [(Client.wid w, Client.MsgInfer input (default Client.default_inputShape shape))]
    /\ Client.promises s' !! Client.nextPromise s = Some Pending
    /\ Client.inferenceCallbacks (Client.client s') !! S (Client.messageId (Client.client s))
       = Some (Client.InferCallback (Client.nextPromise s))
    /\ Client.messageId (Client.client s') = S (Client.messageId (Client.client s)).
Proof.
  intros Hi Hw. unfold Client.infer. rewrite Hi, Hw. cbn.
  eexists. split; [reflexivity |]. cbn.
  repeat split; by rewrite ?lookup_insert_eq.
Qed.

(** C9: whenever the client is not ready (the initialized flag is off or
    there is no worker), [infer] completes at once: the caller's promise is
    already rejected with the error "TFLiteClient not initialized. Call init()
    first.", nothing is posted to a worker, no callback is registered, and the
    state is unchanged, so the call cannot hang. *)
Theorem infer_before_init_fails_fast input shape s :
  Client.isInitialized (Client.client s) = false ∨ Client.worker (Client.client s) = None ->
  let r := Client.infer input shape s in
  r.2 = Already (Rejected Client.not_initialized_message)
  /\ r.1 = s
  /\ (forall store, observe store r.2 <> Pending)
  /\ String.index 0 "not initialized" Client.not_initialized_message = Some 13.
Proof.
  intros H r. subst r. rewrite (infer_guard _ _ _ H). cbn.
  split; [reflexivity |]. split; [reflexivity |]. split; [| reflexivity].
  intros store. discriminate.
Qed.

Lemma infer_before_init_fails_fast_witness :
  let calling := (Client.init Client.browser Scenario.modelUrl Client.initial).1 in
  (Client.infer Scenario.imageA None calling).2
  = Already (Rejected Client.not_initialized_message)
  /\ (Client.infer Scenario.imageA None calling).1 = calling.
Proof.
  cbv zeta.
  pose proof (infer_before_init_fails_fast Scenario.imageA None
                (Client.init Client.browser Scenario.modelUrl Client.initial).1
                (or_introl eq_refl)) as H.
  cbv zeta in H. tauto.
Defined.

(** ** Teardown *)

Lemma terminate_client s :
  Client.client (Client.terminate s) =
  Client.mkFields None false None ∅ (Client.messageId (Client.client s)).
Proof. destruct s as [[[w|] ? ? ? ?] ? ? ? ? ? ?]; reflexivity. Qed.


Lemma terminate_twice s : Client.terminate (Client.terminate s) = Client.terminate s.
Proof.
  destruct s as [[[w|] ? ? ? ?] ? ? ? ? ? ?]; reflexivity.
Qed.

(** [init] on a client that is neither initializing nor initialized, in a
    browser where the worker can be created. *)
Lemma init_fresh url s :
  Client.initPromise (Client.client s) = None ->
  Client.isInitialized (Client.client s) = false ->
  let p := Client.nextPromise s in
  let w := Client.mkWorker (Client.nextWorker s) p in
  let f := Client.client s in
  Client.init Client.browser url s =
  (Client.mkState
     (Client.mkFields (Some w) false (Some p)
                      (<[0 := Client.InitCallback p]> (Client.inferenceCallbacks f))
                      (Client.messageId f))
     (<[p := Pending]> (Client.promises s)) (S p) (S (Client.nextWorker s))
     (Client.outbox s ++ [(Client.nextWorker s, Client.MsgInit url)])
     (Client.terminated s)
     (Client.console s ++ [Client.ConsoleLog "[TFLiteClient] Creating worker...";
                           Client.ConsoleLog "[TFLiteClient] Sending init message with model:"]),
   Adopts p).
Proof.
  intros Hp Hi. unfold Client.init. rewrite Hp, Hi. cbn.
  unfold Client.set_client, Client.post, Client.log. cbn.
  rewrite Hi. by rewrite <- app_assoc.
Qed.

(** C8: [terminate] leaves the client with no worker, the initialized flag
    off, no init promise and an empty callback map; a worker that existed is
    terminated; pending requests are dropped from the map (their promises are
    left as they were).  A second [terminate] changes nothing.  After it,
    [init] in a browser starts afresh: it creates a new worker, posts one init
    message to it and hands out a new pending promise, and the worker's
    success message then makes the client ready. *)
Theorem terminate_idempotent_and_reinit s url :
  let s1 := Client.terminate s in
  let s2 := Client.terminate s1 in
  let s3 := (Client.init Client.browser url s2).1 in
  let s4 := Client.handleWorkerMessage (Client.MsgResult (Some [1%float]) 0%float) s3 in
  Client.client s1 = Client.mkFields None false None ∅ (Client.messageId (Client.client s))
  /\ (forall w, Client.worker (Client.client s) = Some w ->
                Client.terminated s1 = Client.terminated s ++ [Client.wid w])
  /\ Client.promises s1 = Client.promises s
  /\ s2 = s1
  /\ (Client.init Client.browser url s2).2 = Adopts (Client.nextPromise s)
  /\ Client.worker (Client.client s3)
     = Some (Client.mkWorker (Client.nextWorker s) (Client.nextPromise s))
  /\ Client.outbox s3 = Client.outbox s ++ [(Client.nextWorker s, Client.MsgInit url)]
  /\ Client.promises s3 !! Client.nextPromise s = Some Pending
  /\ Client.isInitialized (Client.client s4) = true
  /\ Client.promises s4 !! Client.nextPromise s = Some (Fulfilled Client.VVoid).
Proof.
  intros s1 s2 s3 s4.
  assert (E21 : s2 = s1) by apply terminate_twice.
  assert (Hc : Client.client s1 =
               Client.mkFields None false None ∅ (Client.messageId (Client.client s)))
    by apply terminate_client.
  assert (Hrest : Client.promises s1 = Client.promises s
                  /\ Client.nextPromise s1 = Client.nextPromise s
                  /\ Client.nextWorker s1 = Client.nextWorker s
                  /\ Client.outbox s1 = Client.outbox s).
  { subst s1. destruct s as [[[w|] ? ? ? ?] ? ? ? ? ? ?]; cbn; done. }
  destruct Hrest as (Hps & Hnp & Hnw & Hob).
  assert (Hinit := init_fresh url s1).
  rewrite Hc in Hinit. specialize (Hinit eq_refl eq_refl).
  cbv zeta in Hinit. cbn [Client.inferenceCallbacks Client.messageId] in Hinit.
  rewrite Hnp, Hnw, Hob, Hps in Hinit.
  subst s4 s3. rewrite E21, Hinit. cbn.
  split; [exact Hc |]. split.
  { intros w Hw. subst s1. unfold Client.terminate. by rewrite Hw. }
  split; [exact Hps |]. split; [reflexivity |]. split; [reflexivity |].
  split; [reflexivity |]. split; [reflexivity |].
  split; [by rewrite lookup_insert_eq |].
  unfold Client.handleWorkerMessage. cbn.
  rewrite lookup_insert_eq. cbn.
  split; [reflexivity |].
  unfold Client.settle_promise. cbn.
  apply settle_pending. by rewrite lookup_insert_eq.
Qed.
(** ** Initialization coalescing *)

Lemma init_in_flight env url s p :
  Client.initPromise (Client.client s) = Some p ->
  Client.init env url s = (s, Adopts p).
Proof. unfold Client.init. by intros ->. Qed.

Lemma init_calls_in_flight env url n s p :
  Client.initPromise (Client.client s) = Some p ->
  Client.init_calls env url n s = (s, replicate n (Adopts p)).
Proof.
  intros Hp. induction n as [|n IH]; [done |].
  cbn. by rewrite (init_in_flight _ _ _ _ Hp), IH.
Qed.

(** The first [init] of an idle client in a browser: one promise, and one
    worker with one init message unless the [Worker] constructor throws. *)
Lemma init_idle env url s :
  Client.hasWindow env = true ->
  Client.initPromise (Client.client s) = None ->
  Client.isInitialized (Client.client s) = false ->
  let s' := (Client.init env url s).1 in
  (Client.init env url s).2 = Adopts (Client.nextPromise s)
  /\ Client.initPromise (Client.client s') = Some (Client.nextPromise s)
  /\ Client.outbox s' =
     Client.outbox s ++
       match Client.workerCtorThrows env with
       | None => [(Client.nextWorker s, Client.MsgInit url)]
       | Some _ => []
       end
  /\ Client.nextWorker s' =
     match Client.workerCtorThrows env with
     | None => S (Client.nextWorker s)
     | Some _ => Client.nextWorker s
     end.
Proof.
  intros Hw Hp Hi. unfold Client.init. rewrite Hp, Hi, Hw. cbn.
  destruct (Client.workerCtorThrows env); cbn; by rewrite ?app_nil_r.
Qed.

(** The model loader: the calls after the first adopt the load in flight. *)
Lemma loadModel_in_flight s p :
  LoadModel.modelInstance s = None ->
  LoadModel.isLoading s = true ->
  LoadModel.loadPromise s = Some p ->
  LoadModel.loadModel true s = (s, Adopts p).
Proof. unfold LoadModel.loadModel. by intros -> -> ->. Qed.

Lemma loadModel_calls_in_flight n s p :
  LoadModel.modelInstance s = None ->
  LoadModel.isLoading s = true ->
  LoadModel.loadPromise s = Some p ->
  LoadModel.loadModel_calls true n s = (s, replicate n (Adopts p)).
Proof.
  intros Hm Hl Hp. induction n as [|n IH]; [done |].
  cbn [LoadModel.loadModel_calls]. by rewrite (loadModel_in_flight _ _ Hm Hl Hp), IH.
Qed.

Lemma loadModel_calls_idle n s :
  LoadModel.modelInstance s = None ->
  LoadModel.isLoading s = false ->
  let p := LoadModel.nextPromise s in
  LoadModel.loadModel_calls true (S n) s =
  (LoadModel.mkState None true (Some p) (<[p := Pending]> (LoadModel.promises s)) (S p)
                     (S (LoadModel.loadsStarted s)),
   replicate (S n) (Adopts p)).
Proof.
  intros Hm Hl p. cbn [LoadModel.loadModel_calls].
  unfold LoadModel.loadModel at 1. rewrite Hm, Hl. cbn [negb].
  by rewrite (loadModel_calls_in_flight n _ p).
Qed.

Lemma loadModel_coalescing n s :
  LoadModel.modelInstance s = None ->
  LoadModel.isLoading s = false ->
  let r := LoadModel.loadModel_calls true (S n) s in
  r.2 = replicate (S n) (Adopts (LoadModel.nextPromise s))
  /\ LoadModel.loadsStarted r.1 = S (LoadModel.loadsStarted s)
  /\ forall outcome r1 r2, r1 ∈ r.2 -> r2 ∈ r.2 ->
       observe (LoadModel.promises (LoadModel.finish outcome r.1)) r1
       = observe (LoadModel.promises (LoadModel.finish outcome r.1)) r2.
Proof.
  intros Hm Hl r. subst r. rewrite (loadModel_calls_idle n s Hm Hl).
  cbn [fst snd LoadModel.loadsStarted].
  split; [done |]. split; [done |].
  intros outcome r1 r2 H1 H2.
  apply elem_of_replicate in H1 as [-> _]. by apply elem_of_replicate in H2 as [-> _].
Qed.

(** ** At most one initialization in flight *)

Lemma callback_reject_skeleton cb e s :
  skeleton (Client.callback_reject cb e s) = skeleton s.
Proof. by destruct cb. Qed.

Lemma callback_resolve_skeleton cb r s :
  skeleton (Client.callback_resolve cb r s) = skeleton s.
Proof. by destruct cb. Qed.

Lemma reject_each_skeleton e (l : list (nat * Client.Callback)) s :
  skeleton (foldl (fun s kv => Client.callback_reject kv.2 e s) s l) = skeleton s.
Proof.
  revert s. induction l as [|kv l IH]; intros s; [done |].
  cbn. by rewrite IH, callback_reject_skeleton.
Qed.

Lemma clear_callbacks_skeleton s : skeleton (Client.clear_callbacks s) = skeleton s.
Proof. done. Qed.

Lemma delete_callback_skeleton id s : skeleton (Client.delete_callback id s) = skeleton s.
Proof. done. Qed.

Lemma log_skeleton e s : skeleton (Client.log e s) = skeleton s.
Proof. done. Qed.

Lemma reject_all_skeleton e s : skeleton (Client.reject_all e s) = skeleton s.
Proof. apply reject_each_skeleton. Qed.

Lemma handleWorkerMessage_skeleton data s :
  skeleton (Client.handleWorkerMessage data s) = skeleton s.
Proof.
  destruct data as [out t | e |]; cbn [Client.handleWorkerMessage]; [| | done].
  - destruct (Client.inferenceCallbacks (Client.client s) !! _) as [cb|];
      [| by rewrite log_skeleton].
    destruct (if Client.is_init_indicator out then 0 else _) as [|k].
    + by rewrite delete_callback_skeleton, callback_resolve_skeleton.
    + destruct out as [o|]; [| by rewrite log_skeleton].
      by rewrite delete_callback_skeleton, callback_resolve_skeleton, log_skeleton.
  - by rewrite clear_callbacks_skeleton, reject_all_skeleton, log_skeleton.
Qed.

Lemma handleWorkerError_skeleton message s :
  skeleton (Client.handleWorkerError message s) = skeleton s.
Proof. unfold Client.handleWorkerError. by destruct (Client.worker (Client.client s)). Qed.

Lemma inits_to_snoc k ob m :
  Client.inits_to k (ob ++ [m]) =
  Client.inits_to k ob + (if decide (Client.is_init m = true /\ m.1 = k) then 1 else 0).
Proof.
  unfold Client.inits_to. rewrite filter_app, length_app. f_equal.
  rewrite filter_cons, filter_nil. by case_decide.
Qed.

Lemma inits_to_unknown k ob nw :
  (forall m, m ∈ ob -> m.1 < nw) -> nw <= k -> Client.inits_to k ob = 0.
Proof.
  intros Hob Hk. unfold Client.inits_to.
  destruct (filter _ ob) as [|m l] eqn:E; [done |].
  assert (Hm : m ∈ filter (fun m => Client.is_init m = true /\ m.1 = k) ob)
    by (rewrite E; left).
  apply list_elem_of_filter in Hm as [[_ Hk'] Hin].
  apply Hob in Hin. lia.
Qed.

Lemma init_skeleton env url s :
  skeleton (Client.init env url s).1 = skeleton s
  \/ (Client.initPromise (Client.client s) = None
      /\ skeleton (Client.init env url s).1 =
         (Client.worker (Client.client s), Some (Client.nextPromise s),
          Client.outbox s, Client.terminated s, Client.nextWorker s))
  \/ (Client.initPromise (Client.client s) = None
      /\ skeleton (Client.init env url s).1 =
         (Some (Client.mkWorker (Client.nextWorker s) (Client.nextPromise s)),
          Some (Client.nextPromise s),
          Client.outbox s ++ [(Client.nextWorker s, Client.MsgInit url)],
          Client.terminated s, S (Client.nextWorker s))).
Proof.
  destruct s as [[w [|] [p|] ? ?] ? ? ? ? ? ?]; try by left.
  destruct env as [[|] [message|]]; try by left.
  - right; left. split; reflexivity.
  - right; right. split; reflexivity.
Qed.

Lemma infer_skeleton input shape s :
  skeleton (Client.infer input shape s).1 = skeleton s
  \/ exists w, Client.worker (Client.client s) = Some w
       /\ skeleton (Client.infer input shape s).1 =
          (Client.worker (Client.client s), Client.initPromise (Client.client s),
           Client.outbox s ++
             [(Client.wid w, Client.MsgInfer input (default Client.default_inputShape shape))],
           Client.terminated s, Client.nextWorker s).
Proof.
  destruct s as [[[w|] [|] ? ? ?] ? ? ? ? ? ?]; try by left.
  right. exists w. split; reflexivity.
Qed.

Lemma terminate_skeleton s :
  skeleton (Client.terminate s) =
  (None, None, Client.outbox s,
   match Client.worker (Client.client s) with
   | Some w => Client.terminated s ++ [Client.wid w]
   | None => Client.terminated s
   end,
   Client.nextWorker s).
Proof. destruct s as [[[w|] ? ? ? ?] ? ? ? ? ? ?]; reflexivity. Qed.

Lemma step_inv e s : channel_inv s -> channel_inv (Client.step e s).
Proof.
  unfold channel_inv. intros Hinv.
  destruct e as [env url | input shape | data | message |]; cbn [Client.step].
  - destruct (init_skeleton env url s) as [-> | [[Hp ->] | [Hp ->]]]; [done | |].
    + unfold skeleton in Hinv. destruct Hinv as (Ha & Hb & Hc & Hd).
      repeat split; try done. by apply Hd.
    + unfold skeleton in Hinv. destruct Hinv as (Ha & Hb & Hc & Hd).
      assert (Hnone : Client.worker (Client.client s) = None).
      { destruct (Client.worker (Client.client s)) as [wk|] eqn:Hw; [| done].
        destruct (Hd wk eq_refl) as [Hne _]. by rewrite Hp in Hne. }
      split; [| split; [| split]].
      * intros m [Hm | Hm%list_elem_of_singleton]%elem_of_app.
        -- apply Ha in Hm. lia.
        -- subst m. cbn. lia.
      * intros k. rewrite inits_to_snoc. cbn.
        case_decide as Hk.
        -- destruct Hk as [_ <-].
           rewrite (inits_to_unknown _ _ (Client.nextWorker s)); [lia | done | lia].
        -- specialize (Hb k). lia.
      * intros k Hk. destruct (decide (k = Client.nextWorker s)) as [-> | Hne].
        -- right. eexists. split; [done |]. done.
        -- destruct (Hc k ltac:(lia)) as [Ht | (wk & Hw & _)]; [by left |].
           by rewrite Hnone in Hw.
      * intros wk [= <-]. cbn. split; [done | lia].
  - destruct (infer_skeleton input shape s) as [-> | (w & Hw & ->)]; [done |].
    unfold skeleton in Hinv. destruct Hinv as (Ha & Hb & Hc & Hd).
    split; [| split; [| split]]; try done.
    + intros m [Hm | Hm%list_elem_of_singleton]%elem_of_app; [by apply Ha |].
      subst m. cbn. by apply Hd.
    + intros k. rewrite inits_to_snoc. cbn.
      rewrite decide_False by (intros [? _]; done). specialize (Hb k). lia.
  - by rewrite handleWorkerMessage_skeleton.
  - by rewrite handleWorkerError_skeleton.
  - rewrite terminate_skeleton.
    unfold skeleton in Hinv. destruct Hinv as (Ha & Hb & Hc & Hd).
    split; [done |]. split; [done |]. split; [| done].
    intros k Hk. left. destruct (Hc k Hk) as [Ht | (wk & Hw & Hwk)].
    + destruct (Client.worker (Client.client s)); [| done].
      apply elem_of_app. by left.
    + rewrite Hw. apply elem_of_app. right. subst k. by apply list_elem_of_singleton.
Qed.

Lemma run_inv es s : channel_inv s -> channel_inv (Client.run es s).
Proof.
  revert s. induction es as [|e es IH]; intros s Hs; [done |].
  cbn. apply IH. by apply step_inv.
Qed.

Lemma initial_inv : channel_inv Client.initial.
Proof.
  repeat split; cbn; try done.
  - intros m Hm. by apply elem_of_nil in Hm.
  - intros k. unfold Client.inits_to. cbn. lia.
  - lia.
Qed.

Lemma filter_length_le {A} (P Q : A -> Prop) `{forall x, Decision (P x)}
      `{forall x, Decision (Q x)} (l : list A) :
  (forall x, x ∈ l -> P x -> Q x) -> length (filter P l) <= length (filter Q l).
Proof.
  induction l as [|x l IH]; intros HPQ; [done |].
  rewrite !filter_cons.
  assert (IH' : length (filter P l) <= length (filter Q l)).
  { apply IH. intros y Hy. apply HPQ. by right. }
  destruct (decide (P x)) as [HP | HP].
  - rewrite decide_True by (apply HPQ; [left | done]). cbn. lia.
  - destruct (decide (Q x)); cbn; lia.
Qed.

Lemma filter_nothing {A} (l : list A) : filter (fun _ => False) l = [].
Proof.
  induction l as [|x l IH]; [done |].
  by rewrite filter_cons_False by (intros []).
Qed.

Lemma inv_live_inits s : channel_inv s -> Client.live_inits s <= 1.
Proof.
  unfold channel_inv, skeleton. intros (Ha & Hb & Hc & Hd).
  unfold Client.live_inits.
  destruct (Client.worker (Client.client s)) as [wk|] eqn:Hw.
  - etrans; [| apply (Hb (Client.wid wk))].
    unfold Client.inits_to. apply filter_length_le.
    intros m Hm [Hi Hnt]. split; [done |].
    destruct (Hc m.1 (Ha m Hm)) as [Ht | (wk' & [= <-] & Hk)]; done.
  - etrans; [apply (filter_length_le _ (fun _ => False)) |].
    + intros m Hm [Hi Hnt].
      destruct (Hc m.1 (Ha m Hm)) as [Ht | (wk' & [=] & Hk)]; done.
    + rewrite filter_nothing. cbn. lia.
Qed.

Example live_inits_ready :
  Client.live_inits (Channel.ui (Channel.exec Scenario.get_ready Channel.start)) = 1.
Proof. vm_compute. reflexivity. Qed.

Example live_inits_terminated :
  Client.live_inits
    (Client.terminate (Channel.ui (Channel.exec Scenario.get_ready Channel.start))) = 0.
Proof. vm_compute. reflexivity. Qed.

(** In every state the client can reach, at most one init message has been
    posted to a worker that is still alive. *)
Lemma at_most_one_init_in_flight es : Client.live_inits (Client.run es Client.initial) <= 1.
Proof. apply inv_live_inits, run_inv, initial_inv. Qed.

(** ** Worker-side errors *)

Lemma rejected_with_idem {A} e (c : Cell A) :
  rejected_with e (rejected_with e c) = rejected_with e c.
Proof. by destruct c. Qed.

Lemma settle_rejected_lookup {A} (p q : PromiseId) e (store : gmap nat (Cell A)) :
  settle p (Rejected e) store !! q =
  if decide (p = q) then rejected_with e <$> store !! q else store !! q.
Proof.
  rewrite settle_lookup. case_decide; [| done].
  by destruct (store !! q) as [[| |]|].
Qed.

Lemma callback_reject_promises cb e s :
  Client.promises (Client.callback_reject cb e s)
  = settle (Client.callback_promise cb) (Rejected e) (Client.promises s).
Proof. by destruct cb. Qed.

Lemma callback_reject_client cb e s :
  Client.client (Client.callback_reject cb e s) = Client.client s
  /\ Client.nextPromise (Client.callback_reject cb e s) = Client.nextPromise s.
Proof. by destruct cb. Qed.

Lemma reject_each_client e (l : list (nat * Client.Callback)) s :
  let s' := foldl (fun s kv => Client.callback_reject kv.2 e s) s l in
  Client.client s' = Client.client s /\ Client.nextPromise s' = Client.nextPromise s.
Proof.
  revert s. induction l as [|kv l IH]; intros s; [done |].
  cbn. destruct (IH (Client.callback_reject kv.2 e s)) as [-> ->].
  apply callback_reject_client.
Qed.

Lemma reject_each_promises e (l : list (nat * Client.Callback)) s p :
  Client.promises (foldl (fun s kv => Client.callback_reject kv.2 e s) s l) !! p
  = if decide (p ∈ targets l) then rejected_with e <$> Client.promises s !! p
    else Client.promises s !! p.
Proof.
  revert s. induction l as [|kv l IH]; intros s.
  - cbn. rewrite decide_False; [done | apply not_elem_of_nil].
  - cbn [foldl]. rewrite IH, callback_reject_promises, settle_rejected_lookup.
    unfold targets. rewrite fmap_cons. fold (targets l).
    destruct (decide (Client.callback_promise kv.2 = p)) as [-> | Hne].
    + rewrite (decide_True (P := _ ∈ _ :: _)) by left.
      case_decide; [| done].
      rewrite <- option_fmap_compose.
      apply option_fmap_ext. intros c. apply rejected_with_idem.
    + destruct (decide (p ∈ targets l)) as [Hin | Hnin].
      * rewrite decide_True; [done | by right].
      * rewrite decide_False; [done |].
        intros [Heq | Hin]%elem_of_cons; [by subst | done].
Qed.

Lemma reject_all_promises e s p :
  Client.promises (Client.reject_all e s) !! p
  = if decide (p ∈ targets (map_to_list (Client.inferenceCallbacks (Client.client s))))
    then rejected_with e <$> Client.promises s !! p
    else Client.promises s !! p.
Proof. apply reject_each_promises. Qed.

Lemma pending_is_target s k cb :
  Client.inferenceCallbacks (Client.client s) !! k = Some cb ->
  Client.callback_promise cb ∈ targets (map_to_list (Client.inferenceCallbacks (Client.client s))).
Proof.
  intros H. unfold targets. apply list_elem_of_fmap.
  exists (k, cb). split; [done |]. by apply elem_of_map_to_list.
Qed.

Lemma target_is_pending s p :
  p ∈ targets (map_to_list (Client.inferenceCallbacks (Client.client s))) ->
  exists k cb, Client.inferenceCallbacks (Client.client s) !! k = Some cb
               /\ Client.callback_promise cb = p.
Proof.
  unfold targets. intros ([k cb] & -> & Hin)%list_elem_of_fmap.
  exists k, cb. split; [by apply elem_of_map_to_list | done].
Qed.

(** A result that finds no callback under the identifier it is dispatched
    to is dropped with a warning; nothing else changes. *)
Lemma unmatched_result_dropped out t s :
  let id := if Client.is_init_indicator out then 0 else Client.messageId (Client.client s) in
  Client.inferenceCallbacks (Client.client s) !! id = None ->
  Client.handleWorkerMessage (Client.MsgResult out t) s
  = Client.log (Client.ConsoleWarn "[TFLiteClient] Received result for unknown message ID:" id) s.
Proof. intros id H. cbn [Client.handleWorkerMessage]. fold id. by rewrite H. Qed.

(** The effect of an error message from the worker. *)
Lemma worker_error_effect e s :
  let s' := Client.handleWorkerMessage (Client.MsgError e) s in
  Client.client s' =
    Client.mkFields (Client.worker (Client.client s)) (Client.isInitialized (Client.client s))
                    (Client.initPromise (Client.client s)) ∅ (Client.messageId (Client.client s))
  /\ Client.nextPromise s' = Client.nextPromise s
  /\ Client.outbox s' = Client.outbox s
  /\ forall p, Client.promises s' !! p =
       if decide (p ∈ targets (map_to_list (Client.inferenceCallbacks (Client.client s))))
       then rejected_with e <$> Client.promises s !! p
       else Client.promises s !! p.
Proof.
  intros s'. subst s'. cbn [Client.handleWorkerMessage].
  set (s0 := Client.log _ s).
  assert (Hc := reject_each_client e (map_to_list (Client.inferenceCallbacks (Client.client s0))) s0).
  cbv zeta in Hc. destruct Hc as [Hc Hn].
  assert (Hsk := reject_all_skeleton e s0).
  unfold Client.clear_callbacks. cbn.
  unfold Client.reject_all. rewrite Hc, Hn.
  split; [done |]. split; [done |]. split.
  - injection Hsk as _ _ Hob _ _. exact Hob.
  - intros p. apply (reject_all_promises e s0 p).
Qed.

Lemma step_keeps_initPromise e s p :
  e <> Client.ETerminate ->
  Client.initPromise (Client.client s) = Some p ->
  Client.initPromise (Client.client (Client.step e s)) = Some p.
Proof.
  intros He Hp.
  assert (Hsk : forall s', skeleton s' = skeleton s ->
                  Client.initPromise (Client.client s') = Some p).
  { intros s' Heq. unfold skeleton in Heq. injection Heq as _ -> _ _ _. exact Hp. }
  destruct e as [env url | input shape | data | message |]; cbn [Client.step]; [| | | | done].
  - by rewrite (init_in_flight env url s p Hp).
  - destruct (infer_skeleton input shape s) as [Heq | (w & _ & Heq)].
    + by apply Hsk.
    + unfold skeleton in Heq. injection Heq as _ -> _ _ _. exact Hp.
  - apply Hsk, handleWorkerMessage_skeleton.
  - apply Hsk, handleWorkerError_skeleton.
Qed.

Lemma run_keeps_initPromise es s p :
  no_terminate es ->
  Client.initPromise (Client.client s) = Some p ->
  Client.initPromise (Client.client (Client.run es s)) = Some p.
Proof.
  intros Hes. revert s. induction Hes as [|e es He _ IH]; intros s Hp; [done |].
  cbn. apply IH. by apply step_keeps_initPromise.
Qed.

(** C2: [n+1] calls of [init] issued back to back on an idle client in a
    browser start one load sequence: the later calls change nothing, every
    caller is handed the same promise, exactly one init message is posted to
    exactly one new worker (none if the [Worker] constructor throws, in which
    case the shared promise is rejected), and whatever happens later all
    callers observe the same outcome; a call of [init] made after any further
    events other than [terminate] is handed that same promise and changes
    nothing.  In every reachable state at most one
    init message is addressed to a live worker.  The model loader [loadModel]
    coalesces concurrent calls in the same way. *)
Theorem init_coalescing env url n s :
  Client.hasWindow env = true ->
  Client.initPromise (Client.client s) = None ->
  Client.isInitialized (Client.client s) = false ->
  let r := Client.init_calls env url (S n) s in
  r.2 = replicate (S n) (Adopts (Client.nextPromise s))
  /\ r.1 = (Client.init env url s).1
  /\ Client.outbox r.1 =
     Client.outbox s ++
       match Client.workerCtorThrows env with
       | None => [(Client.nextWorker s, Client.MsgInit url)]
       | Some _ => []
       end
  /\ Client.nextWorker r.1 =
     match Client.workerCtorThrows env with
     | None => S (Client.nextWorker s)
     | Some _ => Client.nextWorker s
     end
  /\ (forall es r1 r2, r1 ∈ r.2 -> r2 ∈ r.2 ->
        observe (Client.promises (Client.run es r.1)) r1
        = observe (Client.promises (Client.run es r.1)) r2)
  /\ (forall es env' url', no_terminate es ->
        Client.init env' url' (Client.run es r.1)
        = (Client.run es r.1, Adopts (Client.nextPromise s)))
  /\ (forall es, Client.live_inits (Client.run es Client.initial) <= 1)
  /\ (forall m, LoadModel.modelInstance m = None -> LoadModel.isLoading m = false ->
        let q := LoadModel.loadModel_calls true (S n) m in
        q.2 = replicate (S n) (Adopts (LoadModel.nextPromise m))
        /\ LoadModel.loadsStarted q.1 = S (LoadModel.loadsStarted m)).
Proof.
  intros Hw Hp Hi r.
  destruct (init_idle env url s Hw Hp Hi) as (Hret & Hip & Hob & Hnw).
  assert (Hr : r = ((Client.init env url s).1, replicate (S n) (Adopts (Client.nextPromise s)))).
  { subst r. cbn [Client.init_calls].
    destruct (Client.init env url s) as [s1 r1] eqn:E. cbn in Hret, Hip. subst r1.
    by rewrite (init_calls_in_flight env url n s1 _ Hip). }
  rewrite Hr. cbn [fst snd].
  split; [done |]. split; [done |]. split; [exact Hob |]. split; [exact Hnw |].
  split; [| split; [| split]].
  - intros es r1 r2 H1 H2.
    apply elem_of_replicate in H1 as [-> _]. by apply elem_of_replicate in H2 as [-> _].
  - intros es env' url' Hes. apply init_in_flight. by apply run_keeps_initPromise.
  - apply at_most_one_init_in_flight.
  - intros m Hm Hl. destruct (loadModel_coalescing n m Hm Hl) as (H1 & H2 & _). done.
Qed.

Lemma init_coalescing_witness :
  (Client.init_calls Client.browser Scenario.modelUrl 3 Client.initial).2
  = [Adopts 0; Adopts 0; Adopts 0]
  /\ Client.outbox (Client.init_calls Client.browser Scenario.modelUrl 3 Client.initial).1
     = [(0, Client.MsgInit Scenario.modelUrl)].
Proof.
  pose proof (init_coalescing Client.browser Scenario.modelUrl 2 Client.initial
                eq_refl eq_refl eq_refl) as H.
  cbv zeta in H. destruct H as (H1 & _ & H3 & _).
  split; [exact H1 | exact H3].
Defined.

(** C1 (behaviour of the code at the failing input): the client is ready,
    caller A and caller B call [infer] before any reply arrives; the worker
    answers A's request first.  The reply computed from A's image is delivered
    to B's promise, A's promise stays pending, and the reply to B's request
    finds no callback and is dropped with a warning. *)
Theorem concurrent_infers_misattributed :
  let s0 := Channel.exec Scenario.get_ready Channel.start in
  let callA := Client.infer Scenario.imageA None (Channel.ui s0) in
  let callB := Client.infer Scenario.imageB None callA.1 in
  let s2 := Channel.exec [Channel.Call (Client.EInfer Scenario.imageA None);
                          Channel.Call (Client.EInfer Scenario.imageB None)] s0 in
  let s3 := Channel.exec [Channel.WorkerTurn Scenario.working; Channel.ClientTurn] s2 in
  let s4 := Channel.exec [Channel.WorkerTurn Scenario.working; Channel.ClientTurn] s3 in
  let outA := Scenario.scores Scenario.modelBytes Scenario.imageA in
  let outB := Scenario.scores Scenario.modelBytes Scenario.imageB in
  callA.2 = Adopts 1 /\ callB.2 = Adopts 2 /\ Channel.ui s2 = callB.1
  /\ Channel.inbox (Channel.exec [Channel.WorkerTurn Scenario.working] s2)
     = [(0, Client.MsgResult (Some outA) 0%float)]
  /\ Channel.inbox (Channel.exec [Channel.WorkerTurn Scenario.working] s3)
     = [(0, Client.MsgResult (Some outB) 0%float)]
  /\ outA <> outB
  /\ observe (Client.promises (Channel.ui s3)) callB.2
     = Fulfilled (Client.VResult (Client.mkResult outA 0%float))
  /\ observe (Client.promises (Channel.ui s4)) callB.2
     = Fulfilled (Client.VResult (Client.mkResult outA 0%float))
  /\ observe (Client.promises (Channel.ui s4)) callA.2 = Pending
  /\ Channel.inbox s4 = []
  /\ last (Client.console (Channel.ui s4))
     = Some (Client.ConsoleWarn "[TFLiteClient] Received result for unknown message ID:" 2).
Proof.
  cbv zeta.
  repeat match goal with |- _ /\ _ => split end; try (vm_compute; reflexivity).
  intros H.
  apply (f_equal (fun l => match l with
                           | x :: _ => PrimFloat.eqb x 0.25%float
                           | [] => false
                           end)) in H.
  vm_compute in H. discriminate.
Qed.

(** C3 (behaviour of the code at the failing input): the worker fails to
    fetch the model, the error reaches the one init promise, and the stored
    init promise is kept: a later [init] returns that rejected promise without
    creating a worker or posting anything, even when the load would now
    succeed; the client stays uninitialized and [infer] keeps failing. *)
Theorem failed_init_is_not_retried :
  let s1 := Channel.exec Scenario.fail_to_load Channel.start in
  let retry := Client.init Client.browser Scenario.modelUrl (Channel.ui s1) in
  let s2 := Channel.exec Scenario.get_ready s1 in
  observe (Client.promises (Channel.ui s1)) (Adopts 0)
  = Rejected "Failed to fetch model: Not Found"
  /\ Client.initPromise (Client.client (Channel.ui s1)) = Some 0
  /\ retry = (Channel.ui s1, Adopts 0)
  /\ observe (Client.promises retry.1) retry.2 = Rejected "Failed to fetch model: Not Found"
  /\ s2 = s1
  /\ Client.isInitialized (Client.client (Channel.ui s2)) = false
  /\ (Client.infer Scenario.imageA None (Channel.ui s2)).2
     = Already (Rejected Client.not_initialized_message).
Proof.
  cbv zeta.
  repeat match goal with |- _ /\ _ => split end; vm_compute; reflexivity.
Qed.

(** C4 (counterexample to the claim as stated): after a worker-side error
    has rejected a pending request, a further [infer] is accepted and
    fulfilled although [init] was not called again; the only init message
    ever posted is the first one. *)
Lemma infer_succeeds_after_worker_error :
  let s1 := Channel.exec (Scenario.get_ready ++
                          [Channel.Call (Client.EInfer Scenario.imageA None);
                           Channel.WorkerTurn Scenario.failing_run; Channel.ClientTurn])
                         Channel.start in
  let s2 := Channel.exec [Channel.Call (Client.EInfer Scenario.imageB None);
                          Channel.WorkerTurn Scenario.working; Channel.ClientTurn] s1 in
  Client.promises (Channel.ui s1) !! 1 = Some (Rejected "Inference failed. Error code: 1")
  /\ Client.inferenceCallbacks (Client.client (Channel.ui s1)) = ∅
  /\ Client.promises (Channel.ui s2) !! 2
     = Some (Fulfilled (Client.VResult
               (Client.mkResult (Scenario.scores Scenario.modelBytes Scenario.imageB) 0%float)))
  /\ filter (fun m => Client.is_init m = true) (Client.outbox (Channel.ui s2))
     = [(0, Client.MsgInit Scenario.modelUrl)].
Proof.
  cbv zeta.
  repeat match goal with |- _ /\ _ => split end; vm_compute; reflexivity.
Qed.

(** C4 (amended): an error message from the worker rejects every pending
    request with that error (a promise already settled keeps its value),
    leaves the promises of no pending request untouched, and empties the
    callback map; the worker, the initialized flag, the stored init promise
    and the message counter are unchanged, so a client that was ready stays
    ready: the next [infer] is accepted and posted without any
    re-initialization. *)
Theorem worker_error_rejects_pending_and_stays_ready e s :
  let s' := Client.handleWorkerMessage (Client.MsgError e) s in
  Client.inferenceCallbacks (Client.client s') = ∅
  /\ (forall k cb, Client.inferenceCallbacks (Client.client s) !! k = Some cb ->
        Client.promises s' !! Client.callback_promise cb
        = rejected_with e <$> Client.promises s !! Client.callback_promise cb)
  /\ (forall p, (forall k cb, Client.inferenceCallbacks (Client.client s) !! k = Some cb ->
                              Client.callback_promise cb <> p) ->
        Client.promises s' !! p = Client.promises s !! p)
  /\ Client.worker (Client.client s') = Client.worker (Client.client s)
  /\ Client.isInitialized (Client.client s') = Client.isInitialized (Client.client s)
  /\ Client.initPromise (Client.client s') = Client.initPromise (Client.client s)
  /\ Client.messageId (Client.client s') = Client.messageId (Client.client s)
  /\ (forall input shape w,
        Client.isInitialized (Client.client s) = true ->
        Client.worker (Client.client s) = Some w ->
        (Client.infer input shape s').2 = Adopts (Client.nextPromise s)
        /\ Client.outbox (Client.infer input shape s').1
           = Client.outbox s ++
               [(Client.wid w, Client.MsgInfer input (default Client.default_inputShape shape))]).
Proof.
  intros s'. destruct (worker_error_effect e s) as (Hc & Hn & Hob & Hps). fold s' in Hc, Hn, Hob, Hps.
  rewrite Hc. cbn [Client.inferenceCallbacks Client.worker Client.isInitialized
                   Client.initPromise Client.messageId].
  split; [done |]. split; [| split].
  - intros k cb Hk. rewrite Hps, decide_True; [done |]. by eapply pending_is_target.
  - intros p Hp. rewrite Hps, decide_False; [done |].
    intros (k & cb & Hk & Heq)%target_is_pending. by eapply Hp.
  - repeat (split; [done |]).
    intros input shape w Hi Hw.
    destruct (infer_ready input shape s' w) as (s'' & Einf & Hob' & _).
    + by rewrite Hc.
    + by rewrite Hc.
    + rewrite Einf. cbn [fst snd]. by rewrite Hob', Hn, Hob.
Qed.

Lemma worker_error_rejects_pending_and_stays_ready_witness :
  let s := Channel.ui (Channel.exec (Scenario.get_ready ++
                                     [Channel.Call (Client.EInfer Scenario.imageA None)])
                                    Channel.start) in
  let s' := Client.handleWorkerMessage (Client.MsgError "Inference failed. Error code: 1") s in
  Client.promises s' !! 1 = Some (Rejected "Inference failed. Error code: 1")
  /\ (Client.infer Scenario.imageB None s').2 = Adopts 2.
Proof.
  cbv zeta.
  pose proof (worker_error_rejects_pending_and_stays_ready
                "Inference failed. Error code: 1"
                (Channel.ui (Channel.exec (Scenario.get_ready ++
                                           [Channel.Call (Client.EInfer Scenario.imageA None)])
                                          Channel.start))) as H.
  cbv zeta in H. destruct H as (_ & Hrej & _ & _ & _ & _ & _ & Hinf).
  split.
  - exact (Hrej 1 (Client.InferCallback 1) eq_refl).
  - exact (proj1 (Hinf Scenario.imageB None (Client.mkWorker 0 0) eq_refl eq_refl)).
Defined.

(* ================================================================== *)
(** * Properties of the tensor conversion *)
(* ================================================================== *)

Lemma rgba_loop_length fuel src i r rgb :
  length (Tensor.rgba_loop fuel src i r rgb) = length rgb.
Proof.
  revert i r rgb. induction fuel as [|fuel IH]; intros i r rgb; [done |].
  cbn [Tensor.rgba_loop]. case_decide; [| done].
  by rewrite IH, !length_insert.
Qed.

(** The loop never touches a position below the current output index. *)
Lemma rgba_loop_below fuel src i r rgb j :
  j < r -> Tensor.rgba_loop fuel src i r rgb !! j = rgb !! j.
Proof.
  revert i r rgb. induction fuel as [|fuel IH]; intros i r rgb Hj; [done |].
  cbn [Tensor.rgba_loop]. case_decide; [| done].
  rewrite IH by lia.
  rewrite !list_lookup_insert_ne by lia. done.
Qed.

(** With enough fuel, pixel [k] of the source (at or after the current
    pixel [n]) lands in the three output positions of pixel [k]. *)
Lemma rgba_loop_pixel fuel src n rgb k c :
  length src <= 4 * n + 4 * fuel ->
  n <= k -> 4 * k < length src -> c < 3 -> 3 * k + c < length rgb ->
  Tensor.rgba_loop fuel src (4 * n) (3 * n) rgb !! (3 * k + c)
  = Some (Tensor.byteAt src (4 * k + c)).
Proof.
  revert n rgb. induction fuel as [|fuel IH]; intros n rgb Hfuel Hn Hk Hc Hlen; [lia |].
  cbn [Tensor.rgba_loop]. rewrite decide_True by lia.
  replace (4 * n + 4) with (4 * S n) by lia.
  replace (3 * n + 3) with (3 * S n) by lia.
  destruct (decide (n = k)) as [-> | Hne].
  - rewrite rgba_loop_below by lia.
    destruct c as [|[|[|c]]]; [| | | lia].
    + rewrite !Nat.add_0_r.
      rewrite list_lookup_insert_ne by lia.
      rewrite list_lookup_insert_ne by lia.
      rewrite list_lookup_insert_eq by lia. done.
    + rewrite list_lookup_insert_ne by lia.
      rewrite list_lookup_insert_eq by (rewrite length_insert; lia). done.
    + rewrite list_lookup_insert_eq by (rewrite !length_insert; lia). done.
  - apply IH; rewrite ?length_insert; lia.
Qed.

(** The two-pixel image: alpha bytes [ff] and [80] are left out; a target
    of one pixel keeps the first pixel only (writes past the end of the typed
    array are ignored). *)
Example imageDataToTensor_two_pixels :
  Tensor.imageDataToTensor Scenario.canvas Scenario.two_pixels (Some 2) (Some 1)
  = Returns [Byte.x0a; Byte.x14; Byte.x1e; Byte.x28; Byte.x32; Byte.x3c].
Proof. vm_compute. reflexivity. Qed.

Example imageDataToTensor_short_target :
  Tensor.imageDataToTensor Scenario.canvas Scenario.two_pixels (Some 1) (Some 1)
  = Returns [Byte.x0a; Byte.x14; Byte.x1e].
Proof. vm_compute. reflexivity. Qed.

(** Whatever the canvas does, a tensor that is returned has three bytes per
    pixel of the target size (224 x 224 when no size is given). *)
Lemma imageDataToTensor_length cv img tw th rgb :
  Tensor.imageDataToTensor cv img tw th = Returns rgb ->
  length rgb = default 224 tw * default 224 th * 3.
Proof.
  unfold Tensor.imageDataToTensor.
  destruct (Tensor.mainContext cv); cbn [negb]; [| done].
  destruct (Tensor.tempContext cv); cbn [negb]; [| done].
  destruct (Tensor.drawAndRead cv img _ _) as [resized | message]; [| done].
  intros [= <-]. by rewrite rgba_loop_length, length_replicate.
Qed.

(** C6: when the canvas contexts are available and the canvas hands back
    the resized image, the conversion returns a buffer of exactly [w * h * 3]
    bytes.  With the 4 bytes per pixel that [getImageData] yields for a
    [w] x [h] image, its entries [3k], [3k+1], [3k+2] are the R, G, B bytes of
    pixel [k] of the resized image (entries [4k], [4k+1], [4k+2] of its
    data); every output entry is one of these, so no alpha byte (entry
    [4k+3]) is copied. *)
Theorem imageDataToTensor_shape cv img w h resized :
  Tensor.mainContext cv = true ->
  Tensor.tempContext cv = true ->
  Tensor.drawAndRead cv img w h = Returns resized ->
  exists rgb,
    Tensor.imageDataToTensor cv img (Some w) (Some h) = Returns rgb
    /\ length rgb = w * h * 3
    /\ (length (Tensor.data resized) = 4 * (w * h) ->
        (forall k c, k < w * h -> c < 3 ->
           rgb !! (3 * k + c) = Tensor.data resized !! (4 * k + c))
        /\ (forall j, j < length rgb ->
              exists k c, k < w * h /\ c < 3 /\ j = 3 * k + c
                          /\ rgb !! j = Tensor.data resized !! (4 * k + c))).
Proof.
  intros Hm Ht Hd. unfold Tensor.imageDataToTensor, default. cbn [from_option id].
  rewrite Hm, Ht, Hd. cbn [negb].
  eexists. split; [reflexivity |].
  assert (Hl : length (Tensor.rgba_loop (length (Tensor.data resized)) (Tensor.data resized)
                         0 0 (replicate (w * h * 3) Byte.x00)) = w * h * 3)
    by by rewrite rgba_loop_length, length_replicate.
  split; [exact Hl |]. intros Hlen.
  assert (Hpix : forall k c, k < w * h -> c < 3 ->
            Tensor.rgba_loop (length (Tensor.data resized)) (Tensor.data resized)
              0 0 (replicate (w * h * 3) Byte.x00) !! (3 * k + c)
            = Tensor.data resized !! (4 * k + c)).
  { intros k c Hk Hc.
    pose proof (rgba_loop_pixel (length (Tensor.data resized)) (Tensor.data resized) 0
                  (replicate (w * h * 3) Byte.x00) k c) as H.
    rewrite !Nat.mul_0_r in H. rewrite H; [| lia | lia | lia | lia | rewrite length_replicate; lia].
    unfold Tensor.byteAt.
    destruct (Tensor.data resized !! (4 * k + c)) as [b|] eqn:E; [done |].
    apply lookup_ge_None in E. lia. }
  split; [exact Hpix |].
  intros j Hj. rewrite Hl in Hj.
  exists (j / 3), (j mod 3).
  assert (Hdm : j = 3 * (j / 3) + j mod 3) by apply Nat.div_mod_eq.
  assert (Hmod : j mod 3 < 3) by (apply Nat.mod_upper_bound; lia).
  assert (Hdiv : j / 3 < w * h) by (apply Nat.Div0.div_lt_upper_bound; lia).
  split; [exact Hdiv |]. split; [exact Hmod |]. split; [exact Hdm |].
  rewrite Hdm at 1. by apply Hpix.
Qed.

Lemma imageDataToTensor_shape_witness :
  exists rgb,
    Tensor.imageDataToTensor Scenario.canvas Scenario.two_pixels (Some 2) (Some 1) = Returns rgb
    /\ length rgb = 6
    /\ rgb !! 4 = Some Byte.x32.
Proof.
  destruct (imageDataToTensor_shape Scenario.canvas Scenario.two_pixels 2 1 Scenario.two_pixels
              eq_refl eq_refl eq_refl) as (rgb & Hret & Hlen & Hrgb).
  exists rgb. split; [exact Hret |]. split; [exact Hlen |].
  exact (proj1 (Hrgb eq_refl) 1 1 (le_n 2) (le_S 2 2 (le_n 2))).
Defined.

(* ================================================================== *)
(** * Properties of the grading history *)
(* ================================================================== *)

Lemma history_json l c : Storage.history (Storage.mkState (Storage.Json l) c) = l.
Proof. reflexivity. Qed.

Lemma history_log e s : Storage.history (Storage.log e s) = Storage.history s.
Proof. unfold Storage.history, Storage.getGradingHistory. cbn. by destruct (Storage.item s). Qed.

Lemma getGradingHistory_spec s :
  (Storage.getGradingHistory s).2 = Storage.history s
  /\ Storage.history (Storage.getGradingHistory s).1 = Storage.history s
  /\ Storage.item (Storage.getGradingHistory s).1 = Storage.item s.
Proof.
  unfold Storage.history, Storage.getGradingHistory.
  destruct (Storage.item s) eqn:E; cbn; rewrite ?E; done.
Qed.

Example generateId_sample : Storage.generateId Scenario.clock = "1700000000000-k3j9x0a2b".
Proof. vm_compute. reflexivity. Qed.

(** What [saveGradingRecord] does, by whether the write is accepted. *)
Lemma saveGradingRecord_cases quota clk record s :
  let r := Storage.saveGradingRecord quota clk record s in
  let newRecord := Storage.stamp clk record in
  let limited := take Storage.retention (newRecord :: Storage.history s) in
  (quota limited = true /\ r.2 = Returns newRecord /\ Storage.history r.1 = limited)
  \/ (quota limited = false /\ r.2 = Throws "Failed to save grading record"
      /\ Storage.history r.1 = Storage.history s).
Proof.
  intros r newRecord limited. subst r. unfold Storage.saveGradingRecord.
  destruct (getGradingHistory_spec s) as (H2 & H1 & _).
  destruct (Storage.getGradingHistory s) as [s1 h]. cbn [fst snd] in H1, H2. subst h.
  fold newRecord. fold limited.
  destruct (quota limited) eqn:Hq; [left | right].
  - split; [done |]. split; [done |]. cbn [fst]. by rewrite history_log.
  - split; [done |]. split; [done |]. cbn [fst]. by rewrite history_log.
Qed.





(** ** Deleting by id *)

Lemma keeps_spec id0 x : Storage.keeps id0 x = true <-> Storage.id x <> id0.
Proof.
  unfold Storage.keeps. destruct (String.eqb_spec (Storage.id x) id0); cbn; split; try done.
Qed.

Lemma filter_all_kept {A} (f : A -> bool) (l : list A) :
  (forall x, x ∈ l -> f x = true) -> List.filter f l = l.
Proof.
  induction l as [|x l IH]; intros H; [done |].
  cbn. rewrite H by left. f_equal. apply IH. intros y Hy. apply H. by right.
Qed.

Lemma filter_filter_same {A} (f : A -> bool) (l : list A) :
  List.filter f (List.filter f l) = List.filter f l.
Proof.
  apply filter_all_kept. intros x Hx%list_elem_of_In%filter_In. tauto.
Qed.

Lemma deleteGradingRecord_cases quota id0 s :
  let r := Storage.deleteGradingRecord quota id0 s in
  let filtered := List.filter (Storage.keeps id0) (Storage.history s) in
  r.2 = Returns tt
  /\ ((quota filtered = true /\ Storage.history r.1 = filtered)
      \/ (quota filtered = false /\ Storage.history r.1 = Storage.history s)).
Proof.
  intros r filtered. subst r. unfold Storage.deleteGradingRecord.
  destruct (getGradingHistory_spec s) as (H2 & H1 & _).
  destruct (Storage.getGradingHistory s) as [s1 h]. cbn [fst snd] in H1, H2. subst h.
  fold filtered.
  destruct (quota filtered) eqn:Hq; (split; [done |]); [left | right].
  - split; [done |]. cbn [fst]. by rewrite history_log.
  - split; [done |]. cbn [fst]. by rewrite history_log.
Qed.

(** C10: [deleteGradingRecord] never throws.  When the write is accepted the
    stored history becomes the old one without the records whose id is the
    given one: every other record stays, unchanged and in the same order.
    When the write is refused the history is left as it was; that does not
    happen when the stored array is within the quota and the quota accepts
    an accepted array with records removed.  In both cases the records with
    another id are the same, in the same order, and nothing is added; for an
    id that no stored record has, the history is unchanged. *)
Theorem delete_by_id_frame quota id0 s :
  let r := Storage.deleteGradingRecord quota id0 s in
  let old := Storage.history s in
  let new := Storage.history r.1 in
  r.2 = Returns tt
  /\ (quota (List.filter (Storage.keeps id0) old) = true ->
        new = List.filter (Storage.keeps id0) old
        /\ (forall x, x ∈ new <-> x ∈ old /\ Storage.id x <> id0))
  /\ (quota (List.filter (Storage.keeps id0) old) = false -> new = old)
  /\ List.filter (Storage.keeps id0) new = List.filter (Storage.keeps id0) old
  /\ (forall x, x ∈ new -> x ∈ old)
  /\ ((forall x, x ∈ old -> Storage.id x <> id0) -> new = old)
  /\ (quota old = true ->
      (forall l, quota l = true -> quota (List.filter (Storage.keeps id0) l) = true) ->
      new = List.filter (Storage.keeps id0) old).
Proof.
  intros r old new.
  destruct (deleteGradingRecord_cases quota id0 s) as [Hret [(Hq & Hh) | (Hq & Hh)]];
    fold r in Hret, Hh; fold new in Hh; fold old in Hh, Hq.
  - split; [exact Hret |]. split; [| split; [| split; [| split; [| split]]]].
    + intros _. split; [exact Hh |]. intros x. rewrite Hh.
      rewrite !list_elem_of_In, filter_In, keeps_spec. done.
    + intros Hq'. by rewrite Hq in Hq'.
    + rewrite Hh. apply filter_filter_same.
    + intros x. rewrite Hh. rewrite !list_elem_of_In, filter_In. tauto.
    + intros Hnone. rewrite Hh. apply filter_all_kept.
      intros x Hx. apply keeps_spec. by apply Hnone.
    + done.
  - split; [exact Hret |]. split; [| split; [| split; [| split; [| split]]]].
    + intros Hq'. by rewrite Hq in Hq'.
    + done.
    + by rewrite Hh.
    + intros x. by rewrite Hh.
    + done.
    + intros Hold Hmono. apply Hmono in Hold. by rewrite Hq in Hold.
Qed.

Lemma delete_by_id_frame_witness :
  let r1 := Storage.mkRecord "1-a" Scenario.good1 [] 0 0.5%float 1%float 1 None in
  let r2 := Storage.mkRecord "2-b" Scenario.good2 [] 1 0.5%float 1%float 2 None in
  let s := Storage.mkState (Storage.Json [r2; r1]) [] in
  Storage.history (Storage.deleteGradingRecord Storage.unlimited "2-b" s).1 = [r1].
Proof.
  cbv zeta.
  pose proof (delete_by_id_frame Storage.unlimited "2-b"
                (Storage.mkState
                   (Storage.Json [Storage.mkRecord "2-b" Scenario.good2 [] 1 0.5%float 1%float 2 None;
                                  Storage.mkRecord "1-a" Scenario.good1 [] 0 0.5%float 1%float 1 None])
                   [])) as H.
  cbv zeta in H. destruct H as (_ & Hq & _).
  exact (proj1 (Hq eq_refl)).
Defined.

(* ================================================================== *)
(** * Properties of batch inference *)
(* ================================================================== *)

Lemma await_loadModel_cached outcome s model :
  LoadModel.modelInstance s = Some model ->
  LoadModel.await_loadModel true outcome s = (s, Returns model).
Proof. unfold LoadModel.await_loadModel, LoadModel.loadModel. by intros ->. Qed.

(** An awaited load that succeeds leaves the model cached. *)
Lemma await_loadModel_loaded hasWindow outcome s s' model :
  LoadModel.await_loadModel hasWindow outcome s = (s', Returns model) ->
  hasWindow = true /\ LoadModel.modelInstance s' = Some model.
Proof.
  unfold LoadModel.await_loadModel, LoadModel.loadModel.
  destruct hasWindow; cbn [negb]; [| done].
  destruct (LoadModel.modelInstance s) as [m|] eqn:Hm.
  { intros [= <- <-]. done. }
  destruct (LoadModel.isLoading s), (LoadModel.loadPromise s) as [p|] eqn:Hp;
    unfold LoadModel.finish; cbn; rewrite ?Hp; destruct outcome; intros [= <- <-]; done.
Qed.

(** With the model cached, [runInference] leaves the loader's state alone. *)
Lemma runInference_cached env dataUrl options s model :
  LoadModel.modelInstance s = Some model ->
  (Pipeline.runInference env dataUrl options s).1 = s.
Proof.
  intros Hm. unfold Pipeline.runInference, Pipeline.runInference_try.
  destruct (Pipeline.hasWindow env); cbn [negb]; [| done].
  rewrite (await_loadModel_cached _ _ _ Hm).
  destruct (Pipeline.preprocess env _ _) as [t|]; [| done].
  destruct (Pipeline.predict env model t) as [o|]; [| done].
  destruct (Pipeline.first_output o) as [ot|]; [| done].
  destruct (Pipeline.tensorData env ot); done.
Qed.

Lemma batch_loop_cached env dataUrls options s model results :
  LoadModel.modelInstance s = Some model ->
  Pipeline.batch_loop env dataUrls options s results
  = (s, results ++ (Pipeline.pushed env options s <$> dataUrls)).
Proof.
  intros Hm. revert results. induction dataUrls as [|dataUrl rest IH]; intros results.
  - cbn. by rewrite app_nil_r.
  - cbn [Pipeline.batch_loop fmap list_fmap].
    pose proof (runInference_cached env dataUrl
                  (Pipeline.mkOptions (Some false) (Pipeline.preprocessConfig options))
                  s model Hm) as Hs.
    unfold Pipeline.pushed at 1.
    destruct (Pipeline.runInference env dataUrl _ s) as [s1 [result | message]];
      cbn [fst snd] in *; subst s1; rewrite IH, <- app_assoc; done.
Qed.


(** [Math.max] with a [NaN] among the scores is [NaN], which [indexOf]
    never finds. *)
Example topClass_with_nan :
  Backend.indexOf (Backend.math_max [0.5%float; PrimFloat.nan]) [0.5%float; PrimFloat.nan]
  = (-1)%Z.
Proof. vm_compute. reflexivity. Qed.

(** The backend batch: one image whose request fails rejects the whole
    batch, whatever the other images would have returned. *)
Lemma promise_all_rejects {A} (settled : list (Completion A)) k message :
  settled !! k = Some (Throws message) ->
  exists message', Backend.promise_all settled = Throws message'.
Proof.
  revert k. induction settled as [|c rest IH]; intros k Hk; [done |].
  destruct c as [a | m]; [| by eexists].
  destruct k as [|k]; [done |]. cbn in Hk.
  destruct (IH k Hk) as [m' Hm']. exists m'. cbn. by rewrite Hm'.
Qed.

Lemma backend_batch_all_or_nothing env imageDataUrls k url message :
  imageDataUrls !! k = Some url ->
  Backend.runInference env url = Throws message ->
  exists message', Backend.runBatchInference env imageDataUrls = Throws message'.
Proof.
  intros Hk Hthrows. unfold Backend.runBatchInference.
  apply (promise_all_rejects _ k message).
  change (List.map ?f ?l) with (f <$> l).
  by rewrite list_lookup_fmap, Hk, <- Hthrows.
Qed.

(** C5 (behaviour of the code at the failing input): for a batch of three
    images whose second one the backend refuses, [runBatchInference] of
    index.ts rejects as a whole and returns no result, although the first and
    third image return a result on their own; [runBatchInference] of the TF.js
    pipeline, on the same batch with the second image failing to decode,
    returns three results, the second one the failed marker. *)
Theorem backend_batch_aborts_on_one_failure :
  let batch := [Scenario.good1; Scenario.bad; Scenario.good2] in
  let ok := Backend.mkResult [0.125%float; 0.875%float] 1 (Some 0.875%float) 12%float in
  Backend.runBatchInference Scenario.backend batch = Throws "Backend inference failed: 400"
  /\ Backend.runInference Scenario.backend Scenario.good1 = Returns ok
  /\ Backend.runInference Scenario.backend Scenario.bad = Throws "Backend inference failed: 400"
  /\ Backend.runInference Scenario.backend Scenario.good2 = Returns ok
  /\ (Pipeline.runBatchInference Scenario.pipeline batch Pipeline.default_options
        LoadModel.initial).2
     = Returns [Pipeline.mkResult [0.125%float; 0.875%float] 12 true;
                Pipeline.failed;
                Pipeline.mkResult [0.125%float; 0.875%float] 12 true].
Proof.
  cbv zeta. repeat match goal with |- _ /\ _ => split end; vm_compute; reflexivity.
Qed.

(* ================================================================== *)
(** * Further properties of the code *)
(* ================================================================== *)

(** ** Grading history: lookup, statistics, clearing *)

(* ================================================================== *)
(** * Further properties of the grading history *)
(* ================================================================== *)

Lemma getGradingRecord_spec id0 s :
  (Storage.getGradingRecord id0 s).2
  = List.find (fun record => String.eqb (Storage.id record) id0) (Storage.history s)
  /\ Storage.history (Storage.getGradingRecord id0 s).1 = Storage.history s.
Proof.
  unfold Storage.getGradingRecord.
  destruct (getGradingHistory_spec s) as (H2 & H1 & _).
  destruct (Storage.getGradingHistory s) as [s1 h]. cbn [fst snd] in *. by subst h.
Qed.

Lemma find_filter_keeps id0 id1 l :
  id1 <> id0 ->
  List.find (fun record => String.eqb (Storage.id record) id1)
            (List.filter (Storage.keeps id0) l)
  = List.find (fun record => String.eqb (Storage.id record) id1) l.
Proof.
  intros Hne. induction l as [|x l IH]; [done |].
  cbn. unfold Storage.keeps at 1.
  destruct (String.eqb_spec (Storage.id x) id0) as [Hx | Hx]; cbn.
  - destruct (String.eqb_spec (Storage.id x) id1) as [Hx1 | Hx1]; [congruence | exact IH].
  - destruct (String.eqb (Storage.id x) id1); [done | exact IH].
Qed.

Lemma find_filter_gone id0 l :
  List.find (fun record => String.eqb (Storage.id record) id0)
            (List.filter (Storage.keeps id0) l) = None.
Proof.
  induction l as [|x l IH]; [done |].
  cbn. unfold Storage.keeps at 1.
  destruct (String.eqb_spec (Storage.id x) id0) as [Hx | Hx]; cbn; [exact IH |].
  destruct (String.eqb_spec (Storage.id x) id0); [done | exact IH].
Qed.



(** X2: after [deleteGradingRecord] the lookup of any other id gives what it
    gave before, whether or not the write was accepted; when the write is
    accepted, the lookup of the deleted id finds nothing. *)
Theorem delete_then_lookup quota id0 s :
  let s' := (Storage.deleteGradingRecord quota id0 s).1 in
  (forall id1, id1 <> id0 ->
     (Storage.getGradingRecord id1 s').2 = (Storage.getGradingRecord id1 s).2)
  /\ (quota (List.filter (Storage.keeps id0) (Storage.history s)) = true ->
      (Storage.getGradingRecord id0 s').2 = None).
Proof.
  intros s'.
  destruct (deleteGradingRecord_cases quota id0 s) as [_ [(Hq & Hh) | (Hq & Hh)]];
    fold s' in Hh.
  - split.
    + intros id1 Hne.
      destruct (getGradingRecord_spec id1 s') as [-> _].
      destruct (getGradingRecord_spec id1 s) as [-> _].
      rewrite Hh. by apply find_filter_keeps.
    + intros _. destruct (getGradingRecord_spec id0 s') as [-> _].
      rewrite Hh. apply find_filter_gone.
  - split.
    + intros id1 _.
      destruct (getGradingRecord_spec id1 s') as [-> _].
      destruct (getGradingRecord_spec id1 s) as [-> _]. by rewrite Hh.
    + intros Hq'. by rewrite Hq in Hq'.
Qed.

Lemma getStorageStats_spec s :
  (Storage.getStorageStats s).2
  = Storage.mkStats (length (Storage.history s))
                    (Storage.timestamp_or_null (last (Storage.history s)))
                    (Storage.timestamp_or_null (head (Storage.history s))).
Proof.
  unfold Storage.getStorageStats.
  destruct (getGradingHistory_spec s) as (H2 & _ & _).
  destruct (Storage.getGradingHistory s) as [s1 h]. cbn [fst snd] in *. by subst h.
Qed.


(** X4: the statistics after a save that was written: the number of records
    is the old number plus one, capped at 100, and the newest timestamp is
    the one just stamped (or none, if the clock read 0, which [||] takes
    for missing). *)
Theorem stats_after_save quota clk record s saved :
  (Storage.saveGradingRecord quota clk record s).2 = Returns saved ->
  let before := (Storage.getStorageStats s).2 in
  let after := (Storage.getStorageStats (Storage.saveGradingRecord quota clk record s).1).2 in
  Storage.totalRecords after = Nat.min (S (Storage.totalRecords before)) 100
  /\ Storage.newestRecord after
     = (if (Storage.now_timestamp clk =? 0)%Z then None else Some (Storage.now_timestamp clk)).
Proof.
  intros Hsaved before after. subst before after.
  rewrite !getStorageStats_spec. cbn [Storage.totalRecords Storage.newestRecord].
  destruct (saveGradingRecord_cases quota clk record s) as [(_ & Hr & Hh) | (_ & Hr & _)];
    [| by rewrite Hr in Hsaved].
  rewrite Hh. change Storage.retention with 100.
  split.
  - rewrite length_take. cbn [length]. lia.
  - reflexivity.
Qed.

Lemma stats_after_save_witness :
  Storage.totalRecords
    (Storage.getStorageStats
       (Storage.saveGradingRecord Storage.unlimited Scenario.clock Scenario.record
          (Storage.mkState Storage.NoData [])).1).2 = 1.
Proof.
  exact (proj1 (stats_after_save Storage.unlimited Scenario.clock Scenario.record
                  (Storage.mkState Storage.NoData [])
                  (Storage.stamp Scenario.clock Scenario.record) eq_refl)).
Defined.

Lemma apply_history_bound quota op s :
  length (Storage.history s) <= 100 ->
  length (Storage.history (Storage.apply quota op s)) <= 100.
Proof.
  intros Hs. destruct op as [clk record | id0 |]; cbn [Storage.apply].
  - destruct (saveGradingRecord_cases quota clk record s) as [(_ & _ & ->) | (_ & _ & ->)];
      [| done].
    change Storage.retention with 100. rewrite length_take. lia.
  - destruct (deleteGradingRecord_cases quota id0 s) as [_ [(_ & ->) | (_ & ->)]]; [| done].
    etrans; [apply List.filter_length_le | done].
  - cbn. lia.
Qed.

(** X5: the cap is an invariant of the storage API: whatever sequence of
    saves, deletes and clears is applied, with any clock readings and under
    any quota, a history of at most 100 records stays at most 100 records
    long; in particular every history built from an empty store is. *)
Theorem history_bound_invariant quota ops s :
  length (Storage.history s) <= 100 ->
  length (Storage.history (Storage.apply_all quota ops s)) <= 100.
Proof.
  revert s. induction ops as [|op ops IH]; intros s Hs; [done |].
  cbn. apply IH. by apply apply_history_bound.
Qed.

Lemma history_bound_invariant_witness :
  length (Storage.history
            (Storage.apply_all Storage.unlimited
               [Storage.Save Scenario.clock Scenario.record; Storage.Delete "x"; Storage.Clear;
                Storage.Save Scenario.clock Scenario.record]
               (Storage.mkState Storage.NoData []))) <= 100.
Proof.
  apply (history_bound_invariant Storage.unlimited _ (Storage.mkState Storage.NoData [])).
  apply Nat.le_0_l.
Defined.

(** ** Client: delivery of replies and teardown *)

(* ================================================================== *)
(** * Further properties of the worker channel *)
(* ================================================================== *)

(** X6: a ready client with one request in flight: when the reply to the
    latest [infer] arrives (an output other than the one-element [1]), the
    caller's promise is fulfilled with exactly that output and time, the
    callback is removed, and no other promise is touched. *)
Theorem single_request_delivery input shape out t s w :
  Client.isInitialized (Client.client s) = true ->
  Client.worker (Client.client s) = Some w ->
  Client.is_init_indicator (Some out) = false ->
  let call := Client.infer input shape s in
  let s' := Client.handleWorkerMessage (Client.MsgResult (Some out) t) call.1 in
  call.2 = Adopts (Client.nextPromise s)
  /\ observe (Client.promises s') call.2 = Fulfilled (Client.VResult (Client.mkResult out t))
  /\ Client.inferenceCallbacks (Client.client s') !! S (Client.messageId (Client.client s)) = None
  /\ (forall p, p <> Client.nextPromise s -> Client.promises s' !! p = Client.promises s !! p).
Proof.
  intros Hi Hw Hout call s'. subst s' call.
  unfold Client.infer. rewrite Hi, Hw. cbn [fst snd Client.new_promise].
  unfold Client.handleWorkerMessage. rewrite Hout. cbn.
  rewrite lookup_insert_eq. cbn.
  split; [reflexivity |]. split; [| split].
  - unfold settle. by rewrite lookup_insert_eq, lookup_insert_eq.
  - by rewrite lookup_delete_eq.
  - intros p Hp. rewrite settle_other by done. by rewrite lookup_insert_ne.
Qed.

Lemma single_request_delivery_witness :
  let s := Channel.ui (Channel.exec Scenario.get_ready Channel.start) in
  let out := Scenario.scores Scenario.modelBytes Scenario.imageA in
  observe (Client.promises
             (Client.handleWorkerMessage (Client.MsgResult (Some out) 0%float)
                (Client.infer Scenario.imageA None s).1))
          (Client.infer Scenario.imageA None s).2
  = Fulfilled (Client.VResult (Client.mkResult out 0%float)).
Proof.
  cbv zeta.
  exact (proj1 (proj2 (single_request_delivery Scenario.imageA None
                         (Scenario.scores Scenario.modelBytes Scenario.imageA) 0%float
                         (Channel.ui (Channel.exec Scenario.get_ready Channel.start))
                         (Client.mkWorker 0 0) eq_refl eq_refl eq_refl))).
Defined.

(** X7: an inference whose output is the single value 1 is taken for the
    worker's init acknowledgement: on a ready client whose init has been
    acknowledged (no callback under key 0), the reply is dropped with a
    warning for id 0, the caller's promise stays pending and its callback
    stays registered. *)
Theorem unit_output_is_never_delivered input shape t s w :
  Client.isInitialized (Client.client s) = true ->
  Client.worker (Client.client s) = Some w ->
  Client.inferenceCallbacks (Client.client s) !! 0 = None ->
  let call := Client.infer input shape s in
  let s' := Client.handleWorkerMessage (Client.MsgResult (Some [1%float]) t) call.1 in
  observe (Client.promises s') call.2 = Pending
  /\ Client.inferenceCallbacks (Client.client s') !! S (Client.messageId (Client.client s))
     = Some (Client.InferCallback (Client.nextPromise s))
  /\ last (Client.console s')
     = Some (Client.ConsoleWarn "[TFLiteClient] Received result for unknown message ID:" 0).
Proof.
  intros Hi Hw H0 call s'. subst s' call.
  unfold Client.infer. rewrite Hi, Hw. cbn [fst snd Client.new_promise].
  unfold Client.handleWorkerMessage. cbn.
  rewrite lookup_insert_ne by done. rewrite H0. cbn.
  split; [by rewrite lookup_insert_eq |]. split; [by rewrite lookup_insert_eq |].
  by rewrite last_snoc.
Qed.

Lemma unit_output_is_never_delivered_witness :
  let s := Channel.ui (Channel.exec Scenario.get_ready Channel.start) in
  observe (Client.promises
             (Client.handleWorkerMessage (Client.MsgResult (Some [1%float]) 0%float)
                (Client.infer Scenario.imageA None s).1))
          (Client.infer Scenario.imageA None s).2
  = Pending.
Proof.
  cbv zeta.
  exact (proj1 (unit_output_is_never_delivered Scenario.imageA None 0%float
                  (Channel.ui (Channel.exec Scenario.get_ready Channel.start))
                  (Client.mkWorker 0 0) eq_refl eq_refl eq_refl)).
Defined.

(** X8: [worker.onerror] rejects the init promise of the current worker and
    nothing else: the client's fields, the callback map included, are
    unchanged and every other promise is left as it was, so requests in flight
    are neither rejected nor dropped; once the init promise is settled the
    handler changes no promise at all. *)
Theorem worker_onerror_spares_requests message s :
  let s' := Client.handleWorkerError message s in
  Client.client s' = Client.client s
  /\ (forall w p, Client.worker (Client.client s) = Some w ->
        Client.promises s' !! p
        = if decide (Client.onerror_rejects w = p)
          then rejected_with ("Worker error: " +:+ message) <$> Client.promises s !! p
          else Client.promises s !! p)
  /\ (forall w c, Client.worker (Client.client s) = Some w ->
        Client.promises s !! Client.onerror_rejects w = Some c -> c <> Pending ->
        Client.promises s' = Client.promises s)
  /\ (Client.worker (Client.client s) = None -> s' = s).
Proof.
  intros s'. subst s'. unfold Client.handleWorkerError.
  destruct (Client.worker (Client.client s)) as [w|] eqn:Hw; cbn.
  - split; [done |]. split; [| split; [| done]].
    + intros w' p [= <-]. apply settle_rejected_lookup.
    + intros w' c [= <-] Hc Hne. unfold settle. rewrite Hc. by destruct c.
  - split; [done |]. split; [done |]. split; done.
Qed.

(** ** Teardown and late events *)





(** ** Client: what holds in every reachable state *)

(** ** What holds in every reachable state of the client *)

Lemma settle_domain {A} (p q : PromiseId) (o c : Cell A) (store : gmap nat (Cell A)) :
  settle p o store !! q = Some c -> exists c', store !! q = Some c'.
Proof.
  rewrite settle_lookup. case_decide; [| by eauto].
  destruct (store !! q) as [c'|]; [by eauto | done].
Qed.

Lemma client_inv_fields s :
  client_inv s <-> fields_inv (Client.client s) (Client.promises s) (Client.nextPromise s).
Proof. reflexivity. Qed.

Lemma fields_inv_settle f ps np p o :
  fields_inv f ps np -> fields_inv f (settle p o ps) np.
Proof.
  intros (Ha & Hb & Hc & Hd). split; [exact Ha |]. split; [exact Hb |]. split; [exact Hc |].
  intros q c [c' Hq]%settle_domain. by eapply Hd.
Qed.

Lemma fields_inv_fewer f ps np cbs' isInit' :
  fields_inv f ps np ->
  cbs' ⊆ Client.inferenceCallbacks f ->
  (isInit' = true -> Client.worker f <> None) ->
  fields_inv (Client.mkFields (Client.worker f) isInit' (Client.initPromise f) cbs'
                              (Client.messageId f)) ps np.
Proof.
  intros (Ha & Hb & Hc & Hd) Hsub Hi. split; [| split; [| split]]; cbn.
  - intros k cb Hk. apply Ha. by eapply lookup_weaken.
  - intros H0. apply Hb. destruct (cbs' !! 0) as [cb|] eqn:E; [| done].
    by rewrite (lookup_weaken _ _ _ _ E Hsub).
  - exact Hi.
  - exact Hd.
Qed.

Lemma fresh_promise_bound (ps : gmap nat (Cell Client.Value)) np :
  (forall p c, ps !! p = Some c -> p < np) ->
  forall p c, <[np := Pending]> ps !! p = Some c -> p < S np.
Proof.
  intros Hd p c. rewrite lookup_insert. case_decide; [intros _; lia |].
  intros Hp%Hd. lia.
Qed.

Lemma init_inv env url s : client_inv s -> client_inv (Client.init env url s).1.
Proof.
  rewrite !client_inv_fields.
  destruct s as [[w i ip cbs mid] ps np nw ob tm co]. cbn.
  intros (Ha & Hb & Hc & Hd). cbn in Ha, Hb, Hc, Hd.
  unfold Client.init. cbn.
  destruct ip as [p|]; [done |]. destruct i; [done |].
  destruct env as [[|] [message|]]; cbn; try done.
  - apply fields_inv_settle. split; [| split; [| split]]; cbn.
    + intros k cb Hk. destruct (Ha k cb Hk) as (H1 & H2 & H3 & H4).
      split; [done |]. split; [done |]. split; [done |]. lia.
    + exact Hb.
    + exact Hc.
    + by apply fresh_promise_bound.
  - split; [| split; [| split]]; cbn.
    + intros k cb. rewrite lookup_insert. case_decide as Hk.
      * subst k. intros [= <-]. cbn.
        split; [lia |]. split; [by eauto |]. split; [done | lia].
      * intros Hcb. destruct (Ha k cb Hcb) as (H1 & H2 & H3 & H4).
        split; [done |]. split; [congruence |]. split; [done | lia].
    + done.
    + done.
    + by apply fresh_promise_bound.
Qed.

Lemma infer_inv input shape s : client_inv s -> client_inv (Client.infer input shape s).1.
Proof.
  rewrite !client_inv_fields.
  destruct s as [[w i ip cbs mid] ps np nw ob tm co]. cbn.
  intros (Ha & Hb & Hc & Hd). cbn in Ha, Hb, Hc, Hd.
  unfold Client.infer. cbn.
  destruct i, w as [w|]; cbn; try done.
  split; [| split; [| split]]; cbn.
  - intros k cb. rewrite lookup_insert. case_decide as Hk.
    + subst k. intros [= <-]. cbn.
      split; [lia |]. split; [done |]. split; [by eauto | lia].
    + intros Hcb. destruct (Ha k cb Hcb) as (H1 & H2 & H3 & H4).
      split; [lia |]. split; [done |]. split; [done | lia].
  - done.
  - done.
  - by apply fresh_promise_bound.
Qed.

Lemma callback_resolve_inv cb r s k :
  client_inv s ->
  Client.inferenceCallbacks (Client.client s) !! k = Some cb ->
  client_inv (Client.delete_callback k (Client.callback_resolve cb r s)).
Proof.
  rewrite !client_inv_fields. intros Hinv Hk.
  destruct cb as [p | p]; cbn.
  - apply fields_inv_settle.
    apply (fields_inv_fewer (Client.client s)); [done | apply delete_subseteq |].
    intros _. destruct Hinv as (Ha & Hb & _ & _).
    destruct (Ha k _ Hk) as (_ & _ & H3 & _).
    destruct (decide (k = 0)) as [-> | Hne]; [apply Hb; by rewrite Hk |].
    destruct (H3 Hne) as [q Hq]. done.
  - apply fields_inv_settle.
    apply (fields_inv_fewer (Client.client s)); [done | apply delete_subseteq |].
    by destruct Hinv as (_ & _ & Hc & _).
Qed.

Lemma log_inv e s : client_inv s -> client_inv (Client.log e s).
Proof. done. Qed.

Lemma handleWorkerMessage_inv data s :
  client_inv s -> client_inv (Client.handleWorkerMessage data s).
Proof.
  intros Hinv. destruct data as [out t | e |]; [| | done].
  - cbn [Client.handleWorkerMessage].
    destruct (Client.inferenceCallbacks (Client.client s) !! _) as [cb|] eqn:Hk; [| done].
    destruct (if Client.is_init_indicator out then 0 else _) as [|k].
    + by apply callback_resolve_inv.
    + destruct out as [o|]; [| done].
      by apply (callback_resolve_inv cb _ (Client.log _ s)).
  - destruct (worker_error_effect e s) as (Hc & Hn & _ & Hps).
    rewrite client_inv_fields, Hc, Hn.
    destruct Hinv as (Ha & Hb & Hc' & Hd).
    split; [| split; [| split]]; cbn; try done.
    intros p c. rewrite Hps. case_decide; [| by apply Hd].
    destruct (Client.promises s !! p) as [c'|] eqn:E; [| done].
    intros _. by eapply Hd.
Qed.

Lemma handleWorkerError_inv message s :
  client_inv s -> client_inv (Client.handleWorkerError message s).
Proof.
  intros Hinv. unfold Client.handleWorkerError.
  destruct (Client.worker (Client.client s)); [| done].
  rewrite client_inv_fields. cbn. by apply fields_inv_settle.
Qed.

Lemma terminate_inv s : client_inv s -> client_inv (Client.terminate s).
Proof.
  rewrite !client_inv_fields, terminate_client.
  intros (_ & _ & _ & Hd).
  assert (Hps : Client.promises (Client.terminate s) = Client.promises s
                /\ Client.nextPromise (Client.terminate s) = Client.nextPromise s)
    by by destruct s as [[[w|] ? ? ? ?] ? ? ? ? ? ?].
  destruct Hps as [-> ->].
  split; [| split; [| split]]; cbn; try done.
Qed.

Lemma step_client_inv e s : client_inv s -> client_inv (Client.step e s).
Proof.
  destruct e; cbn [Client.step];
    auto using init_inv, infer_inv, handleWorkerMessage_inv, handleWorkerError_inv, terminate_inv.
Qed.

Lemma run_client_inv es s : client_inv s -> client_inv (Client.run es s).
Proof.
  revert s. induction es as [|e es IH]; intros s Hs; [done |].
  change (Client.run (e :: es) s) with (Client.run es (Client.step e s)).
  by apply IH, step_client_inv.
Qed.

Lemma initial_client_inv : client_inv Client.initial.
Proof. repeat split; cbn; try done. Qed.

(** X10: in every state the client can reach, from a new client and through
    any calls and events: every pending callback sits under a key no larger
    than the message counter, so the key [infer] takes next is free and no
    pending request is ever overwritten; key 0 is only ever the init
    callback; the client reports initialized only while it has a worker; and
    the promise [infer] or [init] creates next is not yet in use. *)
Theorem reachable_client_state es :
  let s := Client.run es Client.initial in
  (forall k cb, Client.inferenceCallbacks (Client.client s) !! k = Some cb ->
     k <= Client.messageId (Client.client s)
     /\ (k = 0 <-> exists p, cb = Client.InitCallback p))
  /\ Client.inferenceCallbacks (Client.client s) !! S (Client.messageId (Client.client s)) = None
  /\ (Client.initialized s = true -> Client.worker (Client.client s) <> None)
  /\ Client.promises s !! Client.nextPromise s = None.
Proof.
  intros s.
  destruct (run_client_inv es Client.initial initial_client_inv) as (Ha & Hb & Hc & Hd).
  fold s in Ha, Hb, Hc, Hd.
  split; [| split; [| split]].
  - intros k cb Hk. destruct (Ha k cb Hk) as (H1 & H2 & H3 & _).
    split; [done |]. split; [done |].
    intros [p ->]. destruct (decide (k = 0)) as [-> | Hne]; [done |].
    by destruct (H3 Hne).
  - destruct (_ !! S _) as [cb|] eqn:E; [| done].
    destruct (Ha _ _ E) as (H1 & _). lia.
  - exact Hc.
  - destruct (_ !! Client.nextPromise s) as [c|] eqn:E; [| done].
    apply Hd in E. lia.
Qed.

(** ** Worker: how messages are answered *)

(* ================================================================== *)
(** * Properties of the worker *)
(* ================================================================== *)

(** X11: the first init message on a new worker is answered with the
    success indicator exactly when the WASM runtime comes up, the model file
    is fetched and the interpreter accepts it; the worker then holds that
    model.  In every other case the answer is an error message and no model is
    loaded. *)
Theorem worker_init_outcome rt url :
  let r := TFLiteWorker.onmessage rt (Client.MsgInit url) TFLiteWorker.fresh in
  let succeeds :=
    TFLiteWorker.wasm rt = TFLiteWorker.WasmReady
    /\ exists modelBytes, TFLiteWorker.fetchModel rt url = TFLiteWorker.FetchOk modelBytes
                          /\ TFLiteWorker._loadModel rt modelBytes = 0%Z in
  (succeeds ->
     r.2 = Client.MsgResult (Some [1%float]) 0%float
     /\ TFLiteWorker.isInitialized r.1 = true /\ TFLiteWorker.modelLoaded r.1 = true
     /\ TFLiteWorker.fetchModel rt url = TFLiteWorker.FetchOk (TFLiteWorker.modelBuffer r.1))
  /\ (~ succeeds ->
     (exists message, r.2 = Client.MsgError message)
     /\ TFLiteWorker.modelLoaded r.1 = false).
Proof.
  intros r succeeds. subst r succeeds. cbn [TFLiteWorker.onmessage TFLiteWorker.fresh].
  cbn [TFLiteWorker.isInitialized].
  destruct (TFLiteWorker.wasm rt) eqn:Hwasm; cbn.
  2-4: split; [intros [? _]; done | intros _; split; [by eexists | done]].
  unfold TFLiteWorker.loadModel. cbn.
  destruct (TFLiteWorker.fetchModel rt url) as [bytes | st | m] eqn:Hfetch.
  2-3: split; [intros [_ (? & ? & _)]; done | intros _; split; [by eexists | done]].
  cbn. destruct (Z.eqb_spec (TFLiteWorker._loadModel rt bytes) 0) as [Hz | Hnz].
  - split; [done |]. intros Hn. destruct Hn. split; [done |]. by exists bytes.
  - split.
    + intros [_ (b & [= <-] & Hb)]. done.
    + intros _. split; [by eexists | done].
Qed.

Lemma worker_init_outcome_witness :
  (TFLiteWorker.onmessage Scenario.working (Client.MsgInit Scenario.modelUrl)
     TFLiteWorker.fresh).2 = Client.MsgResult (Some [1%float]) 0%float.
Proof.
  refine (proj1 (proj1 (worker_init_outcome Scenario.working Scenario.modelUrl) _)).
  split; [reflexivity |]. exists Scenario.modelBytes. split; reflexivity.
Defined.

Lemma onmessage_stuck rt message s :
  TFLiteWorker.isInitialized s = true ->
  TFLiteWorker.modelLoaded s = false ->
  TFLiteWorker.onmessage rt message s = (s, stuck_reply (rt, message)).
Proof.
  intros Hi Hm. destruct message; cbn; rewrite Hi; [done |]. by rewrite Hm.
Qed.

(** X12: a worker whose runtime is initialized but whose model did not load
    never loads one: every later init message is answered at once with a
    result carrying [null], without fetching or loading anything, every infer
    message with the error "Worker not initialized or model not loaded", and
    the worker's state never changes, whatever the runtime conditions. *)
Theorem worker_without_model_is_stuck turns s :
  TFLiteWorker.isInitialized s = true ->
  TFLiteWorker.modelLoaded s = false ->
  TFLiteWorker.onmessages turns s = (s, stuck_reply <$> turns).
Proof.
  intros Hi Hm. induction turns as [|[rt message] turns IH]; [done |].
  cbn [TFLiteWorker.onmessages]. by rewrite (onmessage_stuck rt message s Hi Hm), IH.
Qed.

Lemma worker_without_model_is_stuck_witness :
  let s := (TFLiteWorker.onmessage Scenario.model_missing (Client.MsgInit Scenario.modelUrl)
              TFLiteWorker.fresh).1 in
  TFLiteWorker.onmessages [(Scenario.working, Client.MsgInit Scenario.modelUrl);
                           (Scenario.working, Client.MsgInfer Scenario.imageA [1; 224; 224; 3])] s
  = (s, [Client.MsgResult None 0%float;
         Client.MsgError "Worker not initialized or model not loaded"]).
Proof.
  cbv zeta.
  exact (worker_without_model_is_stuck
           [(Scenario.working, Client.MsgInit Scenario.modelUrl);
            (Scenario.working, Client.MsgInfer Scenario.imageA [1; 224; 224; 3])]
           (TFLiteWorker.onmessage Scenario.model_missing (Client.MsgInit Scenario.modelUrl)
              TFLiteWorker.fresh).1 eq_refl eq_refl).
Defined.

Lemma onmessage_worker_inv rt message s :
  worker_inv s -> worker_inv (TFLiteWorker.onmessage rt message s).1.
Proof.
  intros [H1 H2].
  assert (Hkeep : worker_inv s) by by split.
  destruct message as [url | input shape]; cbn.
  - destruct (TFLiteWorker.isInitialized s) eqn:Hi; [exact Hkeep |].
    destruct (TFLiteWorker.wasm rt); cbn; try exact Hkeep.
    unfold TFLiteWorker.loadModel. cbn.
    destruct (TFLiteWorker.fetchModel rt url); cbn; try (by split).
    destruct (_ =? _)%Z; by split.
  - by destruct (negb _ || negb _).
Qed.

Lemma onmessages_worker_inv turns s :
  worker_inv s -> worker_inv (TFLiteWorker.onmessages turns s).1.
Proof.
  revert s. induction turns as [|[rt message] turns IH]; intros s Hs; [done |].
  cbn [TFLiteWorker.onmessages].
  pose proof (onmessage_worker_inv rt message s Hs) as H1.
  destruct (TFLiteWorker.onmessage rt message s) as [s1 reply]. cbn [fst] in H1.
  specialize (IH s1 H1). by destruct (TFLiteWorker.onmessages turns s1).
Qed.

(** X13: in every state a worker can reach from its start, an infer message
    never changes the worker's state, and it is answered with the
    interpreter's output read for that very input exactly when a model is
    loaded and the interpreter reports status 0; otherwise the answer is an
    error message. *)
Theorem worker_infer_outcome turns rt input shape :
  let s := (TFLiteWorker.onmessages turns TFLiteWorker.fresh).1 in
  let r := TFLiteWorker.onmessage rt (Client.MsgInfer input shape) s in
  r.1 = s
  /\ (TFLiteWorker.modelLoaded s = true
      /\ TFLiteWorker._runInference rt (TFLiteWorker.modelBuffer s) input = 0%Z ->
      r.2 = Client.MsgResult
              (Some (TFLiteWorker.readOutput rt (TFLiteWorker.modelBuffer s) input)) 0%float)
  /\ (~ (TFLiteWorker.modelLoaded s = true
         /\ TFLiteWorker._runInference rt (TFLiteWorker.modelBuffer s) input = 0%Z) ->
      exists message, r.2 = Client.MsgError message).
Proof.
  intros s r.
  assert (Hinv : worker_inv s) by (apply onmessages_worker_inv; by split).
  destruct Hinv as [H1 H2]. subst r. cbn [TFLiteWorker.onmessage].
  destruct (TFLiteWorker.modelLoaded s) eqn:Hm.
  - rewrite (H1 eq_refl). cbn. unfold TFLiteWorker.runInference.
    rewrite (H2 (H1 eq_refl)), Hm. cbn.
    destruct (Z.eqb_spec (TFLiteWorker._runInference rt (TFLiteWorker.modelBuffer s) input) 0)
      as [Hz | Hnz].
    + split; [done |]. split; [done |]. intros Hn. by destruct Hn.
    + split; [done |]. split; [by intros [_ ?] |]. intros _. by eexists.
  - rewrite orb_true_r. cbn. split; [done |]. split; [by intros [? _] |].
    intros _. by eexists.
Qed.

(** ** Client and worker together: one request at a time *)

(* ================================================================== *)
(** * Requests made one at a time *)
(* ================================================================== *)

Lemma posted_to_app w ob1 ob2 :
  Channel.posted_to w (ob1 ++ ob2) = Channel.posted_to w ob1 ++ Channel.posted_to w ob2.
Proof. unfold Channel.posted_to. apply omap_app. Qed.

(** An [infer] on a ready client followed by the dispatch of a result that
    is not the init indicator. *)
Lemma infer_then_result input shape out t s w :
  Client.isInitialized (Client.client s) = true ->
  Client.worker (Client.client s) = Some w ->
  Client.is_init_indicator (Some out) = false ->
  let s1 := (Client.infer input shape s).1 in
  let s2 := Client.handleWorkerMessage (Client.MsgResult (Some out) t) s1 in
  Client.worker (Client.client s1) = Some w
  /\ Client.outbox s1 = Client.outbox s
       ++ [(Client.wid w, Client.MsgInfer input (default Client.default_inputShape shape))]
  /\ Client.promises s2
     = <[Client.nextPromise s := Fulfilled (Client.VResult (Client.mkResult out t))]>
         (Client.promises s)
  /\ Client.nextPromise s2 = S (Client.nextPromise s)
  /\ Client.isInitialized (Client.client s2) = true
  /\ Client.worker (Client.client s2) = Some w
  /\ Client.outbox s2 = Client.outbox s1.
Proof.
  intros Hi Hw Hout s1 s2. subst s2 s1.
  unfold Client.infer. rewrite Hi, Hw. cbn [fst snd Client.new_promise].
  unfold Client.handleWorkerMessage. rewrite Hout. cbn.
  rewrite lookup_insert_eq. cbn. rewrite Hw, Hi.
  repeat (split; [reflexivity |]).
  split; [| done].
  unfold settle. rewrite lookup_insert_eq. apply insert_insert_eq.
Qed.

(** One round of the composed system from a synced state. *)
Lemma round_synced rt input sys w ws :
  synced sys w ws ->
  TFLiteWorker._runInference rt (TFLiteWorker.modelBuffer ws) input = 0%Z ->
  Client.is_init_indicator
    (Some (TFLiteWorker.readOutput rt (TFLiteWorker.modelBuffer ws) input)) = false ->
  let sys' := Channel.exec (Channel.round rt input) sys in
  synced sys' w ws
  /\ Client.promises (Channel.ui sys')
     = <[Client.nextPromise (Channel.ui sys) :=
           Fulfilled (Client.VResult
                        (Client.mkResult
                           (TFLiteWorker.readOutput rt (TFLiteWorker.modelBuffer ws) input)
                           0%float))]>
         (Client.promises (Channel.ui sys))
  /\ Client.nextPromise (Channel.ui sys') = S (Client.nextPromise (Channel.ui sys)).
Proof.
  intros (Hi & Hw & Hin & Hproc & Hws & Hmod & Hwi & Hml) Hcode Hout sys'.
  destruct (infer_then_result input None _ 0%float (Channel.ui sys) w Hi Hw Hout)
    as (Hw1 & Hob1 & Hps & Hnp & Hi2 & Hw2 & Hob2).
  set (s1 := (Client.infer input None (Channel.ui sys)).1) in *.
  (* the worker's turn *)
  assert (Hturn : Channel.act (Channel.WorkerTurn rt)
                    (Channel.mkSystem s1 (Channel.workers sys) (Channel.processed sys)
                                      (Channel.inbox sys))
                  = Channel.mkSystem s1 (<[Client.wid w := ws]> (Channel.workers sys))
                      (<[Client.wid w := S (length (Channel.posted_to (Client.wid w)
                                                      (Client.outbox (Channel.ui sys))))]>
                         (Channel.processed sys))
                      [(Client.wid w,
                        Client.MsgResult
                          (Some (TFLiteWorker.readOutput rt (TFLiteWorker.modelBuffer ws) input))
                          0%float)]).
  { cbn [Channel.act Channel.ui Channel.processed Channel.workers Channel.inbox].
    rewrite Hw1, Hproc, Hob1, posted_to_app.
    rewrite lookup_app_r by done. rewrite Nat.sub_diag.
    cbn. rewrite decide_True by done. cbn.
    rewrite Hws. rewrite Hwi, Hml. cbn.
    unfold TFLiteWorker.runInference. rewrite Hmod, Hml, Hcode. cbn.
    by rewrite Hin. }
  assert (Hsys' : sys' = Channel.mkSystem
                    (Client.handleWorkerMessage
                       (Client.MsgResult
                          (Some (TFLiteWorker.readOutput rt (TFLiteWorker.modelBuffer ws) input))
                          0%float) s1)
                    (<[Client.wid w := ws]> (Channel.workers sys))
                    (<[Client.wid w := S (length (Channel.posted_to (Client.wid w)
                                                    (Client.outbox (Channel.ui sys))))]>
                       (Channel.processed sys))
                    []).
  { subst sys'. unfold Channel.round, Channel.exec. cbn [foldl].
    change (Channel.act (Channel.Call (Client.EInfer input None)) sys)
      with (Channel.mkSystem s1 (Channel.workers sys) (Channel.processed sys)
                             (Channel.inbox sys)).
    rewrite Hturn.
    cbn [Channel.act Channel.inbox Channel.ui Channel.workers Channel.processed].
    rewrite Hw1. by rewrite decide_True. }
  rewrite Hsys'. cbn [Channel.ui].
  split; [| by split].
  unfold synced. cbn [Channel.ui Channel.inbox Channel.processed Channel.workers].
  rewrite Hi2, Hw2, Hob2, Hob1, posted_to_app, length_app, !lookup_insert_eq. cbn.
  rewrite decide_True by done. cbn.
  repeat split; try done. lia.
Qed.

Lemma rounds_cons rt input inputs sys :
  Channel.exec (Channel.rounds rt (input :: inputs)) sys
  = Channel.exec (Channel.rounds rt inputs) (Channel.exec (Channel.round rt input) sys).
Proof. unfold Channel.rounds, Channel.exec. cbn [fmap list_fmap concat]. apply foldl_app. Qed.

Lemma rounds_synced rt inputs : forall sys w ws,
  synced sys w ws ->
  (forall input, input ∈ inputs ->
     TFLiteWorker._runInference rt (TFLiteWorker.modelBuffer ws) input = 0%Z
     /\ Client.is_init_indicator
          (Some (TFLiteWorker.readOutput rt (TFLiteWorker.modelBuffer ws) input)) = false) ->
  let sys' := Channel.exec (Channel.rounds rt inputs) sys in
  synced sys' w ws
  /\ Client.nextPromise (Channel.ui sys') = Client.nextPromise (Channel.ui sys) + length inputs
  /\ (forall p, p < Client.nextPromise (Channel.ui sys) ->
        Client.promises (Channel.ui sys') !! p = Client.promises (Channel.ui sys) !! p)
  /\ (forall i input, inputs !! i = Some input ->
        Client.promises (Channel.ui sys') !! (Client.nextPromise (Channel.ui sys) + i)
        = Some (Fulfilled (Client.VResult
                  (Client.mkResult
                     (TFLiteWorker.readOutput rt (TFLiteWorker.modelBuffer ws) input)
                     0%float)))).
Proof.
  induction inputs as [|input inputs IH]; intros sys w ws Hsync Hall sys'.
  - subst sys'. cbn. split; [done |]. split; [lia |]. split; [done |]. intros i input Hi. done.
  - subst sys'. rewrite rounds_cons.
    destruct (Hall input ltac:(left)) as [Hcode Hout].
    destruct (round_synced rt input sys w ws Hsync Hcode Hout) as (Hsync1 & Hps1 & Hnp1).
    set (sys1 := Channel.exec (Channel.round rt input) sys) in *.
    destruct (IH sys1 w ws Hsync1 (fun x Hx => Hall x ltac:(by right)))
      as (Hsync2 & Hnp2 & Hold & Hnew).
    split; [exact Hsync2 |]. split; [rewrite Hnp2, Hnp1; cbn; lia |]. split.
    + intros p Hp. rewrite Hold by lia. rewrite Hps1. by rewrite lookup_insert_ne by lia.
    + intros [|i] x Hx.
      * cbn in Hx. injection Hx as <-. rewrite Nat.add_0_r.
        rewrite Hold by lia. rewrite Hps1. by rewrite lookup_insert_eq.
      * cbn in Hx. specialize (Hnew i x Hx). rewrite Hnp1 in Hnew.
        by replace (Client.nextPromise (Channel.ui sys) + S i)
          with (S (Client.nextPromise (Channel.ui sys)) + i) by lia.
Qed.

(** X14: requests made one at a time are answered correctly.  From a ready
    client whose worker holds a model and has nothing left to do, a sequence
    of requests, each awaited before the next (call, worker's turn, client's
    turn), fulfils the promise of the i-th call with the interpreter's output
    for the i-th input, leaves every older promise as it was, and ends in a
    state of the same kind (provided the interpreter reports status 0 and no
    output is the one-element [1]). *)
Theorem sequential_requests_are_answered rt inputs sys w ws :
  synced sys w ws ->
  (forall input, input ∈ inputs ->
     TFLiteWorker._runInference rt (TFLiteWorker.modelBuffer ws) input = 0%Z
     /\ Client.is_init_indicator
          (Some (TFLiteWorker.readOutput rt (TFLiteWorker.modelBuffer ws) input)) = false) ->
  let sys' := Channel.exec (Channel.rounds rt inputs) sys in
  (forall i input, inputs !! i = Some input ->
     (Client.infer input None
        (Channel.ui (Channel.exec (Channel.rounds rt (take i inputs)) sys))).2
     = Adopts (Client.nextPromise (Channel.ui sys) + i)
     /\ Client.promises (Channel.ui sys') !! (Client.nextPromise (Channel.ui sys) + i)
        = Some (Fulfilled (Client.VResult
                  (Client.mkResult
                     (TFLiteWorker.readOutput rt (TFLiteWorker.modelBuffer ws) input)
                     0%float))))
  /\ (forall p, p < Client.nextPromise (Channel.ui sys) ->
        Client.promises (Channel.ui sys') !! p = Client.promises (Channel.ui sys) !! p)
  /\ synced sys' w ws.
Proof.
  intros Hsync Hall sys'.
  destruct (rounds_synced rt inputs sys w ws Hsync Hall) as (Hsync' & _ & Hold & Hnew).
  split; [| by split].
  intros i input Hi. split; [| by apply Hnew].
  destruct (rounds_synced rt (take i inputs) sys w ws Hsync) as (Hs & Hn & _ & _).
  { intros x Hx. apply Hall. apply elem_of_take in Hx as (j & Hj & _).
    by eapply list_elem_of_lookup_2. }
  destruct Hs as (Hi1 & Hw1 & _).
  destruct (infer_ready input None _ w Hi1 Hw1) as (s'' & -> & _).
  cbn [snd]. rewrite Hn, length_take. f_equal. f_equal.
  apply lookup_lt_Some in Hi. lia.
Qed.

Lemma sequential_requests_are_answered_witness :
  let sys := Channel.exec Scenario.get_ready Channel.start in
  Client.promises
    (Channel.ui (Channel.exec (Channel.rounds Scenario.working [Scenario.imageA; Scenario.imageB])
                              sys)) !! 2
  = Some (Fulfilled (Client.VResult
            (Client.mkResult (Scenario.scores Scenario.modelBytes Scenario.imageB) 0%float))).
Proof.
  cbv zeta.
  assert (Hsync : synced (Channel.exec Scenario.get_ready Channel.start) (Client.mkWorker 0 0)
                    (TFLiteWorker.mkState true true true Scenario.modelBytes)).
  { repeat split. }
  assert (Hall : forall input, input ∈ [Scenario.imageA; Scenario.imageB] ->
            TFLiteWorker._runInference Scenario.working Scenario.modelBytes input = 0%Z
            /\ Client.is_init_indicator
                 (Some (TFLiteWorker.readOutput Scenario.working Scenario.modelBytes input))
               = false).
  { intros input Hin. split; [reflexivity |].
    apply elem_of_cons in Hin as [-> | Hin]; [reflexivity |].
    apply list_elem_of_singleton in Hin as ->. reflexivity. }
  exact (proj2 (proj1 (sequential_requests_are_answered Scenario.working
                         [Scenario.imageA; Scenario.imageB] _ _ _ Hsync Hall)
                      1 Scenario.imageB eq_refl)).
Defined.

(** ** Model loader and the TF.js pipeline *)

(* ================================================================== *)
(** * Further properties of the model loader and the pipeline *)
(* ================================================================== *)

(** X15: a failed load does not poison the loader.  From an idle loader in a
    browser, an awaited load that fails throws the error under the prefix
    "Failed to load model: " and leaves the loader idle with nothing cached;
    the next call starts a second load, and when that one succeeds its model
    is returned and cached. *)
Theorem loadModel_retries_after_failure message model s :
  LoadModel.modelInstance s = None ->
  LoadModel.isLoading s = false ->
  let first := LoadModel.await_loadModel true (Throws message) s in
  let second := LoadModel.await_loadModel true (Returns model) first.1 in
  first.2 = Throws ("Failed to load model: " +:+ message)
  /\ LoadModel.isModelLoaded first.1 = false
  /\ LoadModel.isLoading first.1 = false
  /\ LoadModel.loadPromise first.1 = None
  /\ second.2 = Returns model
  /\ LoadModel.getModelInstance second.1 = Some model
  /\ LoadModel.loadsStarted second.1 = S (S (LoadModel.loadsStarted s)).
Proof.
  intros Hm Hl first second. subst second first.
  unfold LoadModel.await_loadModel, LoadModel.loadModel.
  rewrite Hm, Hl. cbn. done.
Qed.

Lemma loadModel_retries_after_failure_witness :
  (LoadModel.await_loadModel true (Returns 7)
     (LoadModel.await_loadModel true (Throws "404") LoadModel.initial).1).2 = Returns 7.
Proof.
  exact (proj1 (proj2 (proj2 (proj2 (proj2
           (loadModel_retries_after_failure "404" 7 LoadModel.initial eq_refl eq_refl)))))).
Defined.

(** X16: [clearModelCache] and a load in flight.  With no load in flight,
    clearing the cache makes the next call start exactly one new load.  With
    a load in flight, clearing changes nothing that matters: the next call
    adopts the load in flight without starting another, and when that load
    completes its model is cached again. *)
Theorem clearModelCache_and_loading model s :
  let cleared := LoadModel.clearModelCache s in
  LoadModel.isModelLoaded cleared = false
  /\ (LoadModel.isLoading s = false ->
      LoadModel.loadsStarted (LoadModel.loadModel true cleared).1
      = S (LoadModel.loadsStarted s)
      /\ (LoadModel.loadModel true cleared).2 = Adopts (LoadModel.nextPromise s))
  /\ (forall p, LoadModel.isLoading s = true -> LoadModel.loadPromise s = Some p ->
      LoadModel.loadModel true cleared = (cleared, Adopts p)
      /\ LoadModel.getModelInstance (LoadModel.finish (Returns model) cleared) = Some model).
Proof.
  intros cleared. subst cleared. unfold LoadModel.loadModel, LoadModel.finish. cbn.
  split; [done |]. split.
  - by intros ->.
  - by intros p -> ->.
Qed.

(** X17: a successful [runInference] in the TF.js pipeline leaves the model
    cached: the result is flagged [modelLoaded], and every later
    [runInference], [warmupModel] or [runBatchInference] from that state
    starts no further load and leaves the loader's state untouched.  The same
    holds after a [warmupModel] that returned [true]. *)
Theorem inference_caches_the_model env dataUrl options s result :
  (Pipeline.runInference env dataUrl options s).2 = Returns result ->
  let s' := (Pipeline.runInference env dataUrl options s).1 in
  Pipeline.modelLoaded result = true
  /\ LoadModel.isModelLoaded s' = true
  /\ (forall url opts, (Pipeline.runInference env url opts s').1 = s')
  /\ (forall urls opts, (Pipeline.runBatchInference env urls opts s').1 = s')
  /\ (forall ctx dummy, (Pipeline.warmupModel env ctx dummy s').1 = s')
  /\ (forall ctx dummy t,
        Pipeline.warmupModel env ctx dummy s = (t, true) ->
        LoadModel.isModelLoaded t = true
        /\ forall url opts, (Pipeline.runInference env url opts t).1 = t).
Proof.
  intros Hret s'.
  (* a run that returns has loaded the model *)
  assert (Hgen : forall u o st r,
            (Pipeline.runInference env u o st).2 = Returns r ->
            Pipeline.modelLoaded r = true
            /\ exists m, LoadModel.modelInstance (Pipeline.runInference env u o st).1 = Some m).
  { intros u o st r. unfold Pipeline.runInference, Pipeline.runInference_try.
    destruct (Pipeline.hasWindow env); cbn [negb]; [| done].
    destruct (LoadModel.await_loadModel true (Pipeline.loads env) st) as [st1 [m | msg]] eqn:E;
      [| done].
    apply await_loadModel_loaded in E as [_ Hm].
    destruct (Pipeline.preprocess env _ _) as [t|]; [| done].
    destruct (Pipeline.predict env m t) as [out|]; [| done].
    destruct (Pipeline.first_output out) as [ot|]; [| done].
    destruct (Pipeline.tensorData env ot); [| done].
    cbn. intros [= <-]. split; [done | by exists m]. }
  assert (Hkeep : forall st m, LoadModel.modelInstance st = Some m ->
            (forall url opts, (Pipeline.runInference env url opts st).1 = st)
            /\ (forall urls opts, (Pipeline.runBatchInference env urls opts st).1 = st)
            /\ (forall ctx dummy, (Pipeline.warmupModel env ctx dummy st).1 = st)).
  { intros st m Hm. split; [| split].
    - intros url opts. by eapply runInference_cached.
    - intros urls opts. unfold Pipeline.runBatchInference.
      destruct (Pipeline.hasWindow env) eqn:Hw.
      + rewrite (await_loadModel_cached _ _ _ Hm).
        by rewrite (batch_loop_cached _ _ _ _ _ _ Hm).
      + unfold LoadModel.await_loadModel, LoadModel.loadModel. by cbn.
    - intros ctx dummy. unfold Pipeline.warmupModel.
      destruct ctx; cbn [negb]; [| done].
      pose proof (runInference_cached env dummy
                    (Pipeline.mkOptions (Some false) (Pipeline.mkConfig None None None None))
                    st m Hm) as Hst.
      by destruct (Pipeline.runInference env dummy _ st) as [st1 [r | msg]]. }
  destruct (Hgen _ _ _ _ Hret) as [Hflag [m Hm]]. fold s' in Hm.
  destruct (Hkeep s' m Hm) as (H1 & H2 & H3).
  split; [done |]. split; [unfold LoadModel.isModelLoaded; by rewrite Hm |].
  split; [done |]. split; [done |]. split; [done |].
  intros ctx dummy t. unfold Pipeline.warmupModel.
  destruct ctx; cbn [negb]; [| done].
  destruct (Pipeline.runInference env dummy _ s) as [t1 [r | msg]] eqn:E; [| done].
  intros [= <-].
  destruct (Hgen dummy (Pipeline.mkOptions (Some false) (Pipeline.mkConfig None None None None))
              s r) as [_ [m' Hm']]; [by rewrite E |].
  rewrite E in Hm'. cbn in Hm'.
  split; [unfold LoadModel.isModelLoaded; by rewrite Hm' |].
  intros url opts. by eapply runInference_cached.
Qed.

Lemma inference_caches_the_model_witness :
  LoadModel.isModelLoaded
    (Pipeline.runInference Scenario.pipeline Scenario.good1 Pipeline.default_options
       LoadModel.initial).1 = true.
Proof.
  exact (proj1 (proj2 (inference_caches_the_model Scenario.pipeline Scenario.good1
                         Pipeline.default_options LoadModel.initial
                         (Pipeline.mkResult [0.125%float; 0.875%float] 12 true) eq_refl))).
Defined.


(** ** Backend client and the inference endpoint *)

(* ================================================================== *)
(** * Further properties of the backend client and the endpoint *)
(* ================================================================== *)

Lemma indexOf_from_bounds i x xs :
  let r := Backend.indexOf_from i x xs in
  (r = -1 \/ (i <= r < i + Z.of_nat (length xs)))%Z.
Proof.
  revert i. induction xs as [|y ys IH]; intros i; cbn; [by left |].
  destruct (PrimFloat.eqb y x); [right; lia |].
  destruct (IH (i + 1)%Z) as [H | H]; [by left | right; lia].
Qed.

Lemma at_index_in_range xs i :
  (0 <= i < Z.of_nat (length xs))%Z -> exists x, Backend.at_index xs i = Some x.
Proof.
  intros Hi. unfold Backend.at_index.
  destruct (Z.ltb_spec i 0); [lia |].
  destruct (xs !! Z.to_nat i) as [x|] eqn:E; [by eexists |].
  apply lookup_ge_None in E. lia.
Qed.

(** X19: what [runInference] of index.ts returns is well formed as far as
    the indices go: the predictions are never empty when the response
    carried none (the fallback is one score), [topClass] is either -1 (no
    score equals the maximum: an empty array or a [NaN]) or an index into the
    predictions, and whenever it is an index the confidence is defined. *)
Theorem backend_result_indices env imageDataUrl result :
  Backend.runInference env imageDataUrl = Returns result ->
  (Backend.topClass result = -1
   \/ 0 <= Backend.topClass result < Z.of_nat (length (Backend.predictions result)))%Z
  /\ ((0 <= Backend.topClass result)%Z -> exists c, Backend.confidence result = Some c)
  /\ (forall status data,
        Backend.fetch env imageDataUrl = Backend.Response true status (Returns data) ->
        Backend.data_predictions data = None ->
        length (Backend.predictions result) = 1).
Proof.
  unfold Backend.runInference.
  destruct (Backend.fetch env imageDataUrl) as [m | [|] status [data | m]]; try done.
  intros [= <-]. cbn [Backend.topClass Backend.predictions Backend.confidence].
  set (ps := match Backend.data_predictions data with Some ps => ps | None => _ end).
  pose proof (indexOf_from_bounds 0 (Backend.math_max ps) ps) as Hb.
  cbv zeta in Hb. fold (Backend.indexOf (Backend.math_max ps) ps) in Hb.
  split; [| split].
  - destruct Hb as [Hb | Hb]; [by left | right; lia].
  - intros Hnn.
    assert (Hin : (0 <= Backend.indexOf (Backend.math_max ps) ps < Z.of_nat (length ps))%Z)
      by (destruct Hb as [Hb | Hb]; lia).
    destruct (at_index_in_range ps _ Hin) as [x Hx].
    destruct (Backend.data_confidence data) as [c|]; [| by eauto].
    destruct (Backend.truthy c); by eauto.
  - intros status' data' [= _ <-] Hnone. subst ps. by rewrite Hnone.
Qed.

Lemma backend_result_indices_witness :
  (exists c, Backend.confidence
               (Backend.mkResult [0.125%float; 0.875%float] 1 (Some 0.875%float) 12%float)
             = Some c).
Proof.
  exact (proj1 (proj2 (backend_result_indices Scenario.backend Scenario.good1
                         (Backend.mkResult [0.125%float; 0.875%float] 1 (Some 0.875%float)
                                           12%float) eq_refl))
               ltac:(done)).
Defined.

Lemma promise_all_returns {A} (settled : list (Completion A)) values :
  Backend.promise_all settled = Returns values <-> settled = Returns <$> values.
Proof.
  revert values. induction settled as [|c rest IH]; intros values.
  - cbn. split; [intros [= <-]; done |]. by destruct values.
  - destruct c as [a | m]; cbn.
    + destruct (Backend.promise_all rest) as [vs | m] eqn:E.
      * split.
        -- intros [= <-]. cbn. f_equal. by apply IH.
        -- destruct values as [|v values]; [done |]. cbn. intros [= -> Hrest].
           apply IH in Hrest. by injection Hrest as ->.
      * split; [done |]. destruct values as [|v values]; [done |].
        cbn. intros [= -> Hrest]. apply IH in Hrest. done.
    + split; [done |]. by destruct values.
Qed.

(** X20: the backend batch returns exactly when every image's request
    returns, and then with the images' own results in the order of the
    images: one per image, nothing dropped or reordered. *)
Theorem backend_batch_returns_iff_all_return env imageDataUrls results :
  Backend.runBatchInference env imageDataUrls = Returns results
  <-> (fun url => Backend.runInference env url) <$> imageDataUrls = Returns <$> results.
Proof. unfold Backend.runBatchInference. apply promise_all_returns. Qed.

Lemma POST_status python request calls :
  let st := Route.status (Route.POST python request calls).2 in
  st = 200 \/ st = 400 \/ st = 500.
Proof.
  destruct request as [[[| b | [|a image]] uid] | message]; cbn; auto.
  unfold Route.runModelInference.
  destruct (python _ uid) as [m | st txt | m | [|] e [out|] saved hid]; cbn; auto.
Qed.

(** X21: the endpoint never throws and answers with one of three statuses.
    It answers 400 exactly when the image is missing, empty or not a string,
    and then the Python backend is not called; a request whose body does not
    parse is answered 500 without a call; otherwise the backend is called
    exactly once with the image and user id, and the answer is 200 with the
    backend's output exactly when the backend responded ok with a JSON body
    whose [success] is truthy and that has an output, else 500 with a message
    under the prefix "Failed to connect to Python backend: ". *)
Theorem endpoint_statuses python request calls :
  let r := Route.POST python request calls in
  (Route.status r.2 = 200 \/ Route.status r.2 = 400 \/ Route.status r.2 = 500)
  /\ (Route.status r.2 = 400 <->
      exists body, request = Returns body
                   /\ match Route.image body with
                      | Route.ImageString image => image = ""
                      | _ => True
                      end)
  /\ (Route.status r.2 = 400 -> r.1 = calls)
  /\ (forall message, request = Throws message -> r.1 = calls /\ Route.status r.2 = 500)
  /\ (forall body image, request = Returns body ->
        Route.image body = Route.ImageString image -> image <> "" ->
        r.1 = calls ++ [(image, Route.user_id body)]
        /\ (Route.status r.2 = 200 <->
            exists e output saved history_id,
              python image (Route.user_id body)
              = Route.Data true e (Some output) saved history_id
              /\ Route.body r.2 = Route.Output output saved history_id)
        /\ (Route.status r.2 = 500 ->
            exists message,
              Route.body r.2
              = Route.ErrorMessage "Inference failed"
                  ("Failed to connect to Python backend: " +:+ message))).
Proof.
  intros r. subst r.
  destruct request as [body | message].
  { cbn [Route.POST fst snd Route.status Route.body].
    destruct body as [[| b | [|a image]] uid]; cbn [Route.POST Route.image Route.user_id].
    1-3: cbn [fst snd Route.status Route.body];
         (split; [by right; left |]);
         (split; [split; [intros _; eexists; split; [reflexivity | done] | done] |]);
         (split; [done |]); (split; [done |]);
         intros ? ? [= <-]; cbn; intros [=]; done.
    set (img := String a image).
    pose proof (POST_status python (Returns (Route.mkBody (Route.ImageString img) uid)) calls)
      as Hst. cbv zeta in Hst. cbn [Route.POST Route.image Route.user_id] in Hst. fold img in Hst.
    split; [exact Hst |]. clear Hst.
    unfold Route.runModelInference.
    destruct (python img uid) as [m | st txt | m | [|] e [out|] saved hid] eqn:Hpy;
      cbn [fst snd Route.status Route.body].
    all: (split; [split; [intros; lia | intros (? & [= <-] & Himg); cbn in Himg; done] |]).
    all: (split; [intros; lia |]); (split; [done |]).
    all: intros body' image' [= <-]; cbn [Route.image Route.user_id]; intros [= <-] _.
    all: (split; [reflexivity |]).
    all: rewrite Hpy.
    all: split;
      [split; [try (intros; lia) | try (by intros (? & ? & ? & ? & ? & ?))]
      | try (intros; lia); try (intros _; by eexists)].
    intros _. by exists e, out, saved, hid. }
  cbn [Route.POST fst snd Route.status Route.body].
  split; [by right; right |].
  split; [split; [intros; lia | by intros (? & ? & _)] |].
  split; [done |]. split; [done |]. intros ? ? [=].
Qed.

Lemma endpoint_statuses_witness :
  (Route.POST (fun _ _ => Route.Data true None (Some "{}") None None)
              (Returns (Route.mkBody (Route.ImageString "") None)) []).1 = [].
Proof.
  exact (proj1 (proj2 (proj2 (endpoint_statuses
                                (fun _ _ => Route.Data true None (Some "{}") None None)
                                (Returns (Route.mkBody (Route.ImageString "") None)) [])))
               eq_refl).
Defined.


(** ** Image preparation *)

(* ================================================================== *)
(** * Properties of [dataUrlToTensor] and of the center crop *)
(* ================================================================== *)

(** X23: how the promise of [dataUrlToTensor] ends.  It is fulfilled only
    with a buffer of exactly width * height * 3 bytes (224 x 224 x 3 when no
    size is given); it is rejected only with "Failed to load image from
    dataURL", exactly when the data URL does not decode, or with "Failed to
    get canvas context", exactly when it decodes and the canvas has no
    context; and an exception raised inside the load handler (by
    [getImageData] or by [imageDataToTensor]) leaves it pending for ever. *)
Theorem dataUrlToTensor_outcomes dom cv dataUrl tw th :
  let r := Tensor.dataUrlToTensor dom cv dataUrl tw th in
  (forall tensor, r = Fulfilled tensor ->
     length tensor = default 224 tw * default 224 th * 3)
  /\ (forall message, r = Rejected message ->
        (message = "Failed to load image from dataURL"
         /\ Tensor.decodeImage dom dataUrl = None)
        \/ (message = "Failed to get canvas context"
            /\ Tensor.decodeImage dom dataUrl <> None /\ Tensor.outerContext dom = false))
  /\ (Tensor.decodeImage dom dataUrl = None ->
      r = Rejected "Failed to load image from dataURL")
  /\ (forall img imageData message,
        Tensor.decodeImage dom dataUrl = Some img ->
        Tensor.outerContext dom = true ->
        Tensor.drawImageAndRead dom img (default 224 tw) (default 224 th) = Returns imageData ->
        Tensor.imageDataToTensor cv imageData (Some (default 224 tw)) (Some (default 224 th))
        = Throws message ->
        r = Pending).
Proof.
  intros r. subst r. unfold Tensor.dataUrlToTensor.
  set (w := default 224 tw). set (h := default 224 th).
  destruct (Tensor.decodeImage dom dataUrl) as [img|] eqn:Hdec.
  2: { split; [done |]. split; [intros ? [= <-]; by left |]. split; [done |]. done. }
  destruct (Tensor.outerContext dom) eqn:Hctx; cbn [negb].
  2: { split; [done |]. split; [intros ? [= <-]; right; done |]. split; [done |]. done. }
  destruct (Tensor.drawImageAndRead dom img w h) as [imageData | m] eqn:Hdraw.
  2: { split; [done |]. split; [done |]. split; [done |]. done. }
  destruct (Tensor.imageDataToTensor cv imageData (Some w) (Some h)) as [tensor | m] eqn:Hconv.
  - split.
    + intros t [= <-]. by apply imageDataToTensor_length in Hconv.
    + split; [done |]. split; [done |].
      intros img' imageData' m' H1 _ H3 H4.
      injection H1 as Himg. subst img'. rewrite Hdraw in H3.
      injection H3 as Hid. subst imageData'. by rewrite Hconv in H4.
  - split; [done |]. split; [done |]. split; [done |]. done.
Qed.

(** X24: the crop taken from a camera frame (and from an uploaded image) is
    the centered square: its side is the smaller of the two dimensions, it
    lies inside the frame, the margins on opposite sides are equal, and it
    touches the frame on at least one axis. *)
Theorem center_square_is_centered width height :
  let c := Crop.center_square width height in
  let side := inject_Z (Z.of_nat (Crop.size c)) in
  Crop.size c = Nat.min width height
  /\ (0 <= Crop.sx c /\ Crop.sx c + side <= inject_Z (Z.of_nat width))%Q
  /\ (0 <= Crop.sy c /\ Crop.sy c + side <= inject_Z (Z.of_nat height))%Q
  /\ (Crop.sx c == inject_Z (Z.of_nat width) - side - Crop.sx c)%Q
  /\ (Crop.sy c == inject_Z (Z.of_nat height) - side - Crop.sy c)%Q
  /\ (Crop.sx c == 0 \/ Crop.sy c == 0)%Q.
Proof.
  intros c side. subst side c. unfold Crop.center_square. cbn [Crop.size Crop.sx Crop.sy].
  split; [done |].
  unfold Qle, Qeq, Qplus, Qminus, Qopp, inject_Z. cbn [Qnum Qden].
  assert (Hz : Z.of_nat (Nat.min width height) = Z.min (Z.of_nat width) (Z.of_nat height))
    by apply Nat2Z.inj_min.
  assert (Hw : Z.of_nat (width - Nat.min width height)
               = (Z.of_nat width - Z.min (Z.of_nat width) (Z.of_nat height))%Z)
    by (rewrite Nat2Z.inj_sub, Hz by apply Nat.le_min_l; done).
  assert (Hh : Z.of_nat (height - Nat.min width height)
               = (Z.of_nat height - Z.min (Z.of_nat width) (Z.of_nat height))%Z)
    by (rewrite Nat2Z.inj_sub, Hz by apply Nat.le_min_r; done).
  rewrite Hw, Hh, Hz.
  unfold Qplus. cbn [Qnum Qden].
  change (Z.pos (1 * 1 * 2)) with 2%Z.
  split; [split; lia |]. split; [split; lia |].
  split; [lia |]. split; [lia |]. lia.
Qed.
